(** * NCAAB second-half bet helper: the dashboard core, embedded and verified

    A shallow embedding of [dashboard.py]: the play-by-play aggregator
    ([compute_first_half_stats_from_pbp]), the team-name normalizer and
    matcher ([normalize_team_name], [teams_match_name]), the game pairing
    engine ([find_matching_odds_event]), the market total extractor
    ([extract_full_game_total_with_book]), the betting evaluator
    ([evaluate_bet]) and the row builder ([build_dashboard_rows]).

    Conventions of the embedding:
    - Python [str] values are [string]s of 8-bit characters; case mapping
      and the whitespace class are the ASCII ones of Python.
    - JSON objects read with [.get] are records whose fields are [option]s
      ([None]: key absent or [null]).
    - Python [int]s are [Z]; the numbers the evaluator compares (the pace
      integer, bookmaker totals, derived lines) are exact rationals [Q].
    - A call that may raise returns a [result]; the network is an explicit
      [world] argument. *)

From Stdlib Require Import Ascii DecimalString QArith Qabs Lqa.
From stdpp Require Import gmap strings list fin_maps.

Local Open Scope Z_scope.

(** ** Python string primitives *)

Module Py.

Definition code (c : ascii) : N := N_of_ascii c.

Definition between (lo hi : N) (c : ascii) : bool :=
  ((lo <=? code c) && (code c <=? hi))%N.

Definition is_upper : ascii -> bool := between 65 90.
Definition is_lower : ascii -> bool := between 97 122.
Definition is_digit : ascii -> bool := between 48 57.

(** [str.isspace] / regex [\s] on one character: TAB, LF, VT, FF, CR,
    the four separators FS, GS, RS, US, and the blank. *)
Definition isspace (c : ascii) : bool :=
  between 9 13 c || between 28 31 c || (code c =? 32)%N.

(** regex [\w] on one character. *)
Definition is_word (c : ascii) : bool :=
  is_lower c || is_upper c || is_digit c || (code c =? 95)%N.

Definition lower_char (c : ascii) : ascii :=
  if is_upper c then ascii_of_N (code c + 32) else c.
Definition upper_char (c : ascii) : ascii :=
  if is_lower c then ascii_of_N (code c - 32) else c.

Fixpoint map_chars (f : ascii -> ascii) (s : string) : string :=
  match s with
  | EmptyString => EmptyString
  | String c s' => String (f c) (map_chars f s')
  end.

(** [s.lower()] and [s.upper()] *)
Definition lower : string -> string := map_chars lower_char.
Definition upper : string -> string := map_chars upper_char.

(** [s.startswith(p)] *)
Fixpoint startswith (p s : string) : bool :=
  match p, s with
  | EmptyString, _ => true
  | String _ _, EmptyString => false
  | String a p', String b s' => if decide (a = b) then startswith p' s' else false
  end.

(** [k in s] *)
Fixpoint contains (k s : string) : bool :=
  startswith k s ||
  match s with
  | EmptyString => false
  | String _ s' => contains k s'
  end.

(** [any(k in s for k in ks)] *)
Definition contains_any (ks : list string) (s : string) : bool :=
  existsb (fun k => contains k s) ks.

(** [s.replace(c, r)] for a one-character [c] *)
Fixpoint replace_char (c : ascii) (r : string) (s : string) : string :=
  match s with
  | EmptyString => EmptyString
  | String a s' =>
      if decide (a = c) then r +:+ replace_char c r s'
      else String a (replace_char c r s')
  end.

Fixpoint lstrip (s : string) : string :=
  match s with
  | EmptyString => EmptyString
  | String c s' => if isspace c then lstrip s' else s
  end.

(** [s.rstrip()]: a whitespace character is kept only when something
    that is kept follows it. *)
Fixpoint rstrip (s : string) : string :=
  match s with
  | EmptyString => EmptyString
  | String c s' =>
      match rstrip s' with
      | EmptyString => if isspace c then EmptyString else String c EmptyString
      | r => String c r
      end
  end.

(** [s.strip()] *)
Definition strip (s : string) : string := rstrip (lstrip s).

(** [s.split()]: the maximal runs of non-whitespace characters. [cur] is
    the run being read, in reverse. *)
Fixpoint split_go (cur : string) (s : string) : list string :=
  match s with
  | EmptyString =>
      match cur with EmptyString => [] | _ => [String.rev cur] end
  | String c s' =>
      if isspace c then
        match cur with
        | EmptyString => split_go EmptyString s'
        | _ => String.rev cur :: split_go EmptyString s'
        end
      else split_go (String c cur) s'
  end.
Definition split : string -> list string := split_go EmptyString.

(** [sep.join(parts)] *)
Fixpoint join (sep : string) (parts : list string) : string :=
  match parts with
  | [] => EmptyString
  | [x] => x
  | x :: rest => x +:+ sep +:+ join sep rest
  end.

(** Truthiness of a value read with [.get]: [None] and [""] are falsy. *)
Definition truthy (o : option string) : bool :=
  match o with
  | Some (String _ _) => true
  | _ => false
  end.

(** [not s] for a string [s] *)
Definition falsy (s : string) : bool :=
  match s with
  | EmptyString => true
  | String _ _ => false
  end.

(** [x or d] for a string-or-None [x] *)
Definition or_else (x : option string) (d : string) : string :=
  match x with
  | Some (String c s) => String c s
  | _ => d
  end.

End Py.

(** ** Calls that may raise *)

Inductive exn : Type :=
  | RequestException (msg : string)   (* connection error, timeout *)
  | HTTPError (msg : string)          (* [raise_for_status] on 4xx / 5xx *)
  | JSONDecodeError (msg : string).   (* [resp.json()] on a body that is not JSON *)

Definition exn_str (e : exn) : string :=
  match e with
  | RequestException m | HTTPError m | JSONDecodeError m => m
  end.

Inductive result (A : Type) : Type :=
  | Return (a : A)
  | Raise (e : exn).
Arguments Return {A} a.
Arguments Raise {A} e.

(** The error monad, with stdpp's [x ← r; k] notation. *)
Global Instance result_ret : MRet result := fun A a => Return a.
Global Instance result_bind : MBind result := fun A B k r =>
  match r with
  | Return a => k a
  | Raise e => Raise e
  end.

(** ** Configuration *)

Definition BOOKMAKER_PRIORITY : list string :=
  ["draftkings"; "fanduel"; "betmgm"; "betonlineag"; "pointsbetus";
   "caesars"; "betrivers"; "unibet_us"; "wynnbet"; "barstool"].

Definition SHOT_KEYWORDS : list string :=
  ["jumper"; "jump shot"; "jumpshot"; "layup"; "dunk"; "hook shot";
   "hookshot"; "tip-in"; "tip in"; "putback"; "2 pointer"; "two pointer";
   "2pt"; "three pointer"; "3 pointer"; "3pt"; "three-point"].

Definition TURNOVER_POSITIVE_PHRASES : list string :=
  ["turnover by"; "turnover on"; "shot clock turnover"; "team turnover";
   "lost ball turnover"; "bad pass turnover"; "traveling turnover";
   "offensive foul turnover"; "backcourt turnover"; "five second turnover";
   "three second turnover"].

Definition TURNOVER_IGNORE_PHRASES : list string :=
  ["points off turnovers"; "turnover margin"; "points via turnovers"].

(** ** Betting evaluator *)

Record bet_eval : Type := {
  qualifies : bool;
  diff_line : Q;
  score_diff : Q;
  lean : string
}.

Definition Qgeb (x y : Q) : bool := Qle_bool y x.
Definition Qltb (x y : Q) : bool := negb (Qle_bool y x).
Definition Qgtb (x y : Q) : bool := Qltb y x.

Definition evaluate_bet (integer_value home_pts_1h away_pts_1h derived_2h_line : Q)
  : bet_eval :=
  let diff_line := Qabs (integer_value - derived_2h_line) in
  let score_diff := Qabs (home_pts_1h - away_pts_1h) in
  let qualifies := Qgeb diff_line 6 && Qltb score_diff 11 in
  let lean :=
    if Qgtb integer_value derived_2h_line then "OVER"
    else if Qltb integer_value derived_2h_line then "UNDER"
    else "NEUTRAL" in
  {| qualifies := qualifies; diff_line := diff_line;
     score_diff := score_diff; lean := lean |}.


(** ** Play-by-play data *)

(** One play of a period: [eventDescription], [visitorText], [homeText],
    [homeScore], [visitorScore]. For a score, [None] is an absent key. *)
Record play : Type := {
  eventDescription : option string;
  visitorText : option string;
  homeText : option string;
  homeScore : option Z;
  visitorScore : option Z
}.

(** [periodNumber] arrives as a JSON number or as a JSON string. *)
Inductive jscalar : Type :=
  | JInt (n : Z)
  | JStr (s : string).

Record period : Type := {
  periodNumber : option jscalar;
  playbyplayStats : option (list play)
}.

Record pbp_data : Type := {
  periods : option (list period)
}.

Record half_stats : Type := {
  fga : Z;
  fta : Z;
  turnovers : Z;
  home_pts_1h : Z;
  away_pts_1h : Z;
  integer : Q
}.

(** [str(p.get("periodNumber")) == "1"] *)
Definition is_period_one (p : period) : bool :=
  match periodNumber p with
  | Some (JInt n) => bool_decide (n = 1)
  | Some (JStr s) => bool_decide (s = "1")
  | None => false
  end.

(** The text the loop classifies:
    [desc = play.get("eventDescription") or ""], and when that is empty
    [play.get("visitorText") or play.get("homeText") or ""]. *)
Definition description (p : play) : string :=
  match Py.or_else (eventDescription p) "" with
  | EmptyString => Py.or_else (visitorText p) (Py.or_else (homeText p) "")
  | desc => desc
  end.

(** The local variables of the loop over the plays. *)
Record tally : Type := {
  t_fga : Z;
  t_fta : Z;
  t_turnovers : Z;
  last_home_score : Z;
  last_visitor_score : Z
}.

Definition tally0 : tally :=
  {| t_fga := 0; t_fta := 0; t_turnovers := 0;
     last_home_score := 0; last_visitor_score := 0 |}.

(** The free-throw branch: how much [fta] grows for a lowercased text. *)
Definition free_throw_increment (desc_lower : string) : Z :=
  if Py.contains "free throw" desc_lower then
    if Py.contains "both free throws" desc_lower then 2
    else if Py.contains "all three free throws" desc_lower
            || Py.contains "all 3 free throws" desc_lower then 3
    else if Py.contains "three free throws" desc_lower
            || Py.contains "3 free throws" desc_lower then 3
    else if Py.contains "two free throws" desc_lower
            || Py.contains "2 free throws" desc_lower then 2
    else 1
  else 0.

(** The field-goal branch. *)
Definition field_goal_increment (desc_lower : string) : Z :=
  let has_shot_word := Py.contains_any SHOT_KEYWORDS desc_lower in
  if has_shot_word && negb (Py.contains "free throw" desc_lower) then 1 else 0.

(** The turnover branch; its [continue] is the last statement of the loop
    body, so it only skips the increment. *)
Definition turnover_increment (desc_lower : string) : Z :=
  if Py.contains "turnover" desc_lower then
    if Py.contains_any TURNOVER_IGNORE_PHRASES desc_lower then 0
    else
      let positive_match := Py.contains_any TURNOVER_POSITIVE_PHRASES desc_lower in
      let starts_with_turnover := Py.startswith "turnover" (Py.strip desc_lower) in
      if positive_match || starts_with_turnover then 1 else 0
  else 0.

(** One iteration of [for play in plays]. *)
Definition count_play (t : tally) (p : play) : tally :=
  let desc_lower := Py.lower (description p) in
  {| last_home_score := default (last_home_score t) (homeScore p);
     last_visitor_score := default (last_visitor_score t) (visitorScore p);
     t_fta := t_fta t + free_throw_increment desc_lower;
     t_fga := t_fga t + field_goal_increment desc_lower;
     t_turnovers := t_turnovers t + turnover_increment desc_lower |}.

Definition count_plays (plays : list play) : tally :=
  foldl count_play tally0 plays.

Definition stats_of_tally (t : tally) : half_stats :=
  {| fga := t_fga t; fta := t_fta t; turnovers := t_turnovers t;
     home_pts_1h := last_home_score t;
     away_pts_1h := last_visitor_score t;
     integer := (inject_Z (t_fga t) + inject_Z (t_fta t) / 2
                 + inject_Z (t_turnovers t))%Q |}.

(** [None] is Python's [None]: no periods, or no period numbered 1. *)
Definition compute_first_half_stats_from_pbp (pbp : pbp_data) : option half_stats :=
  match default [] (periods pbp) with
  | [] => None
  | ps =>
      match List.find is_period_one ps with
      | None => None
      | Some first_half =>
          let plays := default [] (playbyplayStats first_half) in
          Some (stats_of_tally (count_plays plays))
      end
  end.

(** ** Team-name normalizer and matcher *)

(** The regular expressions of [normalize_team_name] are of three shapes
    only, each modelled by the scan [re.sub] performs for it. *)
Module Re.

(** One position of a pattern [\bWORD\b]: a literal character, or the
    wildcard [.] (any character but a line feed). *)
Inductive atom : Type :=
  | Lit (c : ascii)
  | Dot.

Definition atom_matches (a : atom) (c : ascii) : bool :=
  match a with
  | Lit l => bool_decide (l = c)
  | Dot => negb (Py.code c =? 10)%N
  end.

(** The pattern text that the f-string [rf"\b{word}\b"] puts between the
    two [\b]: a full stop in [word] is an unescaped wildcard. *)
Fixpoint atoms (word : string) : list atom :=
  match word with
  | EmptyString => []
  | String c w => (if decide (c = "."%char) then Dot else Lit c) :: atoms w
  end.

Definition word_at (o : option ascii) : bool :=
  match o with
  | Some c => Py.is_word c
  | None => false
  end.

Definition head (s : string) : option ascii :=
  match s with
  | EmptyString => None
  | String c _ => Some c
  end.

(** [\b] between the character before ([prev]) and the one after. *)
Definition boundary (prev next : option ascii) : bool :=
  xorb (word_at prev) (word_at next).

(** The atoms match a prefix of [s] and a [\b] follows. *)
Fixpoint match_here (pat : list atom) (prev : option ascii) (s : string) : bool :=
  match pat with
  | [] => boundary prev (head s)
  | a :: pat' =>
      match s with
      | EmptyString => false
      | String c s' => atom_matches a c && match_here pat' (Some c) s'
      end
  end.

(** [re.sub(rf"\b{word}\b", " ", s)], left to right; [skip] counts the
    characters of the current match still to be consumed. Boundaries
    are those of the subject string, so [prev] is always the character
    just read. *)
Fixpoint sub_word_go (pat : list atom) (skip : nat) (prev : option ascii)
    (s : string) : string :=
  match s with
  | EmptyString => EmptyString
  | String c s' =>
      match skip with
      | S k => sub_word_go pat k (Some c) s'
      | O =>
          if boundary prev (Some c) && match_here pat prev s
          then String " " (sub_word_go pat (Nat.pred (length pat)) (Some c) s')
          else String c (sub_word_go pat 0 (Some c) s')
      end
  end.

Definition sub_word (word : string) (s : string) : string :=
  sub_word_go (atoms word) 0 None s.

(** [re.sub(r"[^a-z0-9\s]", " ", s)] *)
Definition sub_punctuation : string -> string :=
  Py.map_chars (fun c =>
    if Py.is_lower c || Py.is_digit c || Py.isspace c then c else " "%char).

(** [re.sub(r"\s+", " ", s)]; [in_run] says a whitespace run is being read. *)
Fixpoint sub_spaces_go (in_run : bool) (s : string) : string :=
  match s with
  | EmptyString => EmptyString
  | String c s' =>
      if Py.isspace c then
        if in_run then sub_spaces_go true s'
        else String " " (sub_spaces_go true s')
      else String c (sub_spaces_go false s')
  end.
Definition sub_spaces : string -> string := sub_spaces_go false.

End Re.

Definition NOISE_WORDS : list string :=
  ["university"; "college"; "state"; "st"; "st."; "the"; "of"].

Definition normalize_team_name (name : option string) : string :=
  match name with
  | None | Some EmptyString => ""
  | Some name =>
      let s := Py.lower name in
      let s := Py.replace_char "&" "and" s in
      let s := Re.sub_punctuation s in
      let s := foldl (fun s word => Re.sub_word word s) s NOISE_WORDS in
      Py.strip (Re.sub_spaces s)
  end.

(** [set(a.split())] *)
Definition token_set (a : string) : gset string := list_to_set (Py.split a).

Definition teams_match_name (ncaa_name odds_name : option string) : bool :=
  let a := normalize_team_name ncaa_name in
  let b := normalize_team_name odds_name in
  if Py.falsy a || Py.falsy b then false
  else if Py.contains a b || Py.contains b a then true
  else
    let common := token_set a ∩ token_set b in
    bool_decide (2 ≤ size common)%nat.


(** ** Betting-market data *)

Record outcome : Type := {
  point : option Q
}.

Record market : Type := {
  market_key : option string;
  outcomes : option (list outcome)
}.

Record bookmaker : Type := {
  bm_key : option string;
  bm_title : option string;
  markets : option (list market)
}.

Record odds_event : Type := {
  home_team : option string;
  away_team : option string;
  bookmakers : option (list bookmaker)
}.

(** ** Game pairing engine *)

(** [any(teams_match_name(n, odds_name) for n in ncaa_names if n)] *)
Definition any_name_matches (ncaa_names : list (option string))
    (odds_name : option string) : bool :=
  existsb (fun n => teams_match_name n odds_name) (filter Py.truthy ncaa_names).

Fixpoint find_matching_odds_event (odds_games : list odds_event)
    (ncaa_home_names ncaa_away_names : list (option string)) : option odds_event :=
  match odds_games with
  | [] => None
  | event :: rest =>
      let odds_home := Some (default "" (home_team event)) in
      let odds_away := Some (default "" (away_team event)) in
      let home_ok := any_name_matches ncaa_home_names odds_home in
      let away_ok := any_name_matches ncaa_away_names odds_away in
      if home_ok && away_ok then Some event
      else
        let home_ok_swapped := any_name_matches ncaa_home_names odds_away in
        let away_ok_swapped := any_name_matches ncaa_away_names odds_home in
        if home_ok_swapped && away_ok_swapped then Some event
        else find_matching_odds_event rest ncaa_home_names ncaa_away_names
  end.

(** ** Market total extractor *)

(** [{bm.get("key"): bm for bm in bookmakers}]: a later quote replaces an
    earlier one that has the same key. *)
Definition bm_by_key (bms : list bookmaker) : gmap (option string) bookmaker :=
  foldl (fun m bm => <[bm_key bm := bm]> m) ∅ bms.

(** The loop [for market in bm.get("markets", [])]: the point that makes
    it return, if any. *)
Fixpoint scan_markets (ms : list market) : option Q :=
  match ms with
  | [] => None
  | m :: ms' =>
      if bool_decide (market_key m = Some "totals") then
        match default [] (outcomes m) with
        | [] => scan_markets ms'
        | first :: _ =>
            match point first with
            | Some p => Some p
            | None => scan_markets ms'
            end
        end
      else scan_markets ms'
  end.

(** The loop [for key in BOOKMAKER_PRIORITY]. *)
Fixpoint scan_priority (by_key : gmap (option string) bookmaker)
    (keys : list string) : option Q * option string :=
  match keys with
  | [] => (None, None)
  | key :: keys' =>
      match by_key !! Some key with
      | None => scan_priority by_key keys'
      | Some bm =>
          match scan_markets (default [] (markets bm)) with
          | Some p => (Some p, Some (Py.or_else (bm_title bm) key))
          | None => scan_priority by_key keys'
          end
      end
  end.

Definition extract_full_game_total_with_book (event : odds_event)
  : option Q * option string :=
  scan_priority (bm_by_key (default [] (bookmakers event))) BOOKMAKER_PRIORITY.

(** ** The network *)

(** What [resp.json()] finds in the body of a reply. *)
Inductive json_body (A : Type) : Type :=
  | NotJson (msg : string)   (* the body does not parse *)
  | JsonObject (a : A)       (* a JSON object *)
  | JsonOther.               (* valid JSON that is not an object *)
Arguments NotJson {A} msg.
Arguments JsonObject {A} a.
Arguments JsonOther {A}.

(** What [requests.get(url, timeout=10)] does. *)
Inductive http_reply (A : Type) : Type :=
  | NoReply (msg : string)                  (* connection error or timeout *)
  | Reply (status : Z) (body : json_body A).
Arguments NoReply {A} msg.
Arguments Reply {A} status body.

(** [resp.raise_for_status()] raises on 4xx and 5xx. *)
Definition raise_for_status (status : Z) : result unit :=
  if bool_decide (400 ≤ status < 600) then Raise (HTTPError "bad status")
  else Return ().

(** [resp.json()] *)
Definition json {A} (b : json_body A) : result (json_body A) :=
  match b with
  | NotJson msg => Raise (JSONDecodeError msg)
  | _ => Return b
  end.

(** ** Scoreboard data *)

Record team_names : Type := {
  short : option string;
  full : option string;
  char6 : option string;
  seo : option string
}.

Record team : Type := {
  names : option team_names
}.

Record game : Type := {
  away : option team;
  home : option team;
  gameState : option string;
  currentPeriod : option string;
  url : option string;
  hasPbp : option bool
}.

Record game_wrap : Type := {
  gw_game : option game
}.

Record scoreboard : Type := {
  games : option (list game_wrap)
}.

(** One refresh cycle's view of the outside: the outcome of
    [get_ncaab_scoreboard_for_today()] and of [fetch_odds_games_today()]
    (both read the clock), and the replies of the NCAA server to
    play-by-play requests, by URL. *)
Record world : Type := {
  scoreboard_today : result scoreboard;
  odds_today : result (list odds_event);
  http_get : string -> http_reply pbp_data
}.

Definition NCAA_BASE_URL : string := "https://ncaa-api.henrygd.me".

Definition get_game_play_by_play (w : world) (game_url_path : option string)
  : result (option pbp_data) :=
  if negb (Py.truthy game_url_path) then Return None
  else
    let full_url := NCAA_BASE_URL +:+ default "" game_url_path +:+ "/play-by-play" in
    (* try: resp = requests.get(...); resp.raise_for_status()
       except Exception: return None *)
    match http_get w full_url with
    | NoReply _ => Return None
    | Reply status body =>
        match raise_for_status status with
        | Raise _ => Return None
        | Return _ =>
            (* outside the try *)
            data ← json body;
            match data with
            | JsonObject d => Return (Some d)
            | _ => Return None
            end
        end
    end.

(** ** Dashboard rows *)

Record row : Type := {
  matchup : string;
  state : string;
  r_period : string;
  r_integer : option Q;
  r_fga : option Z;
  r_fta : option Z;
  r_to : option Z;
  half_score : option string;
  full_game_total : option Q;
  full_game_book : option string;
  derived_2h_line : option Q;
  r_qualifies : option bool;
  r_lean : option string;
  r_diff_line : option Q;
  r_score_diff : option Q
}.

(** [str(n)] for an [int] *)
Definition str_of_int (n : Z) : string := NilEmpty.string_of_int (Z.to_int n).

Definition no_names : team_names :=
  {| short := None; full := None; char6 := None; seo := None |}.
Definition no_game : game :=
  {| away := None; home := None; gameState := None; currentPeriod := None;
     url := None; hasPbp := None |}.

(** [period.replace(".", "").strip()] *)
Definition period_clean (period : string) : string :=
  Py.strip (Py.replace_char "." "" period).

Definition is_first_half (period_clean : string) : bool :=
  Py.contains "1" period_clean
  && negb (Py.contains "FINAL" period_clean)
  && negb (Py.contains "OT" period_clean)
  && negb (Py.contains "HALF" period_clean).

Definition is_halftime (period_clean : string) : bool :=
  Py.contains "HALF" period_clean.

(** The filter at the top of the loop body: [false] is its [continue]. *)
Definition shown (period : string) : bool :=
  let pc := period_clean period in
  is_first_half pc || is_halftime pc.

(** The body of [for gwrap in games]: [Return None] is the [continue] of
    the period filter, [Return (Some r)] the row it appends. *)
Definition game_row (w : world) (odds_games : list odds_event) (gwrap : game_wrap)
  : result (option row) :=
  let g := default no_game (gw_game gwrap) in
  let away_names := default no_names (away g ≫= names) in
  let home_names := default no_names (home g ≫= names) in
  let away_short := Py.or_else (short away_names) "Away" in
  let home_short := Py.or_else (short home_names) "Home" in
  let state := Py.upper (Py.or_else (gameState g) "") in
  let period := Py.upper (Py.or_else (currentPeriod g) "") in
  let game_path := url g in
  if negb (shown period) then Return None
  else
    stats_1h ←
      (if default true (hasPbp g) then
         pbp ← get_game_play_by_play w game_path;
         Return (pbp ≫= compute_first_half_stats_from_pbp)
       else Return None);
    let odds_event :=
      find_matching_odds_event odds_games
        [Some home_short; full home_names; char6 home_names; seo home_names]
        [Some away_short; full away_names; char6 away_names; seo away_names] in
    let '(full_game_total, full_game_book) :=
      match odds_event with
      | Some ev => extract_full_game_total_with_book ev
      | None => (None, None)
      end in
    let derived_2h_line :=
      match stats_1h, full_game_total with
      | Some st, Some total =>
          let half_points := home_pts_1h st + away_pts_1h st in
          Some (total - inject_Z half_points)%Q
      | _, _ => None
      end in
    let eval_result :=
      match stats_1h, derived_2h_line with
      | Some st, Some line =>
          Some (evaluate_bet (integer st) (inject_Z (home_pts_1h st))
                  (inject_Z (away_pts_1h st)) line)
      | _, _ => None
      end in
    Return (Some
      {| matchup := away_short +:+ " @ " +:+ home_short;
         state := state;
         r_period := period;
         r_integer := integer <$> stats_1h;
         r_fga := fga <$> stats_1h;
         r_fta := fta <$> stats_1h;
         r_to := turnovers <$> stats_1h;
         half_score :=
           (fun st => str_of_int (away_pts_1h st) +:+ "-" +:+ str_of_int (home_pts_1h st))
             <$> stats_1h;
         full_game_total := full_game_total;
         full_game_book := full_game_book;
         derived_2h_line := derived_2h_line;
         r_qualifies := qualifies <$> eval_result;
         r_lean := lean <$> eval_result;
         r_diff_line := diff_line <$> eval_result;
         r_score_diff := score_diff <$> eval_result |}).

(** [for gwrap in games], started with the rows built so far. *)
Fixpoint rows_loop (w : world) (odds_games : list odds_event)
    (games : list game_wrap) (rows : list row) : result (list row) :=
  match games with
  | [] => Return rows
  | gwrap :: rest =>
      r ← game_row w odds_games gwrap;
      rows_loop w odds_games rest
        (match r with Some new_row => rows ++ [new_row] | None => rows end)
  end.

Definition build_dashboard_rows (w : world) : result (list row * option string) :=
  match scoreboard_today w with
  | Raise e => Return ([], Some ("Error loading NCAA scoreboard: " +:+ exn_str e))
  | Return sb =>
      let games := default [] (games sb) in
      match odds_today w with
      | Raise e => Return ([], Some ("Error loading Odds API data: " +:+ exn_str e))
      | Return odds_games =>
          rows ← rows_loop w odds_games games [];
          Return (rows, None)
      end
  end.

(** ** Sample data *)

Definition text_play (desc : string) : play :=
  {| eventDescription := Some desc; visitorText := None; homeText := None;
     homeScore := None; visitorScore := None |}.

Definition scored_play (desc : string) (h v : option Z) : play :=
  {| eventDescription := Some desc; visitorText := None; homeText := None;
     homeScore := h; visitorScore := v |}.

Definition sample_period : period :=
  {| periodNumber := Some (JStr "1");
     playbyplayStats := Some
       [ scored_play "Smith made Layup" (Some 2) (Some 0);
         scored_play "Foul on Jones" None None;
         scored_play "Jones made Three Pointer" (Some 2) (Some 3);
         scored_play "Timeout" None None ] |}.

Definition totals (p : Q) : market :=
  {| market_key := Some "totals"; outcomes := Some [ {| point := Some p |} ] |}.

Definition quote (key title : string) (p : Q) : bookmaker :=
  {| bm_key := Some key; bm_title := Some title; markets := Some [ totals p ] |}.

Definition event_of (bms : list bookmaker) : odds_event :=
  {| home_team := Some "Duke Blue Devils"; away_team := Some "North Carolina Tar Heels";
     bookmakers := Some bms |}.

Definition names_of (short_name : string) : option team :=
  Some {| names := Some {| short := Some short_name; full := None;
                           char6 := None; seo := None |} |}.

Definition game_of (away_name home_name period path : string) (pbp : bool) : game_wrap :=
  {| gw_game := Some
       {| away := names_of away_name; home := names_of home_name;
          gameState := Some "live"; currentPeriod := Some period;
          url := Some path; hasPbp := Some pbp |} |}.

(** A cycle with no market events in which no play-by-play is requested. *)
Definition quiet_world (gs : list game_wrap) : world :=
  {| scoreboard_today := Return {| games := Some gs |};
     odds_today := Return [];
     http_get := fun _ => NoReply "unreachable" |}.

Definition first_half_game : game_wrap :=
  game_of "Duke" "Wake Forest" "1st" "/game/1" false.
Definition overtime_final_game : game_wrap :=
  game_of "Kansas" "Baylor" "Final/1OT" "/game/2" false.
Definition halftime_game : game_wrap :=
  game_of "Gonzaga" "Pepperdine" "HALF" "/game/3" false.

(** A scoreboard game in overtime whose label also says "half". *)
Definition overtime_world : world :=
  quiet_world [game_of "Duke" "Wake Forest" "OT Half" "/game/7" false].

Definition overtime_row : row :=
  {| matchup := "Duke @ Wake Forest"; state := "LIVE"; r_period := "OT HALF";
     r_integer := None; r_fga := None; r_fta := None; r_to := None;
     half_score := None; full_game_total := None; full_game_book := None;
     derived_2h_line := None; r_qualifies := None; r_lean := None;
     r_diff_line := None; r_score_diff := None |}.

(** Three first-half games; the server answers the play-by-play request
    of the second one with status 200 and a body that is not JSON. *)
Definition garbled_world : world :=
  {| scoreboard_today :=
       Return {| games := Some [game_of "Duke" "Wake Forest" "1st" "/game/1" true;
                                game_of "Kansas" "Baylor" "1st" "/game/2" true;
                                game_of "Gonzaga" "Pepperdine" "HALF" "/game/3" true] |};
     odds_today := Return [];
     http_get := fun u =>
       if bool_decide (u = "https://ncaa-api.henrygd.me/game/2/play-by-play")
       then Reply 200 (NotJson "Expecting value: line 1 column 1 (char 0)")
       else Reply 200 (JsonObject {| periods := Some [] |}) |}.

(** A first-half game with play-by-play and a matching market event
    quoted by DraftKings. *)
Definition matched_game : game_wrap :=
  game_of "Duke" "Wake Forest" "1st" "/game/1" true.

Definition matched_odds : list odds_event :=
  [ {| home_team := Some "Wake Forest Demon Deacons";
       away_team := Some "Duke Blue Devils";
       bookmakers := Some [quote "draftkings" "DraftKings" 145] |} ].

Definition matched_world : world :=
  {| scoreboard_today := Return {| games := Some [matched_game] |};
     odds_today := Return matched_odds;
     http_get := fun _ => Reply 200 (JsonObject {| periods := Some [sample_period] |}) |}.

(** ** Specification-side vocabulary *)

(** The last score an ordered list of plays reports through [f], 0 when
    none of them does. *)
Definition last_seen (f : play -> option Z) (plays : list play) : Z :=
  default 0 (last (omap f plays)).

(** Some variant of [ncaa_names] matches [odds_name]. *)
Definition some_variant_matches (ncaa_names : list (option string))
    (odds_name : option string) : Prop :=
  ∃ n, n ∈ ncaa_names ∧ teams_match_name n odds_name = true.

(** The same, for a variant that is present and not empty. *)
Definition some_nonempty_variant_matches (ncaa_names : list (option string))
    (odds_name : option string) : Prop :=
  ∃ n, n ∈ ncaa_names ∧ Py.truthy n = true ∧ teams_match_name n odds_name = true.

(** A market event pairs with a scoreboard game: normal alignment (a) or
    swapped alignment (b). *)
Definition pairs_with (home_names away_names : list (option string))
    (ev : odds_event) : Prop :=
  (some_nonempty_variant_matches home_names (home_team ev)
   ∧ some_nonempty_variant_matches away_names (away_team ev))
  ∨ (some_variant_matches home_names (away_team ev)
     ∧ some_variant_matches away_names (home_team ev)).

(** A market quotes the total [p]: it is tagged "totals" and its first
    outcome carries the point [p]. *)
Definition quotes_total (m : market) (p : Q) : Prop :=
  market_key m = Some "totals"
  ∧ ∃ first others, outcomes m = Some (first :: others) ∧ point first = Some p.

(** None of the markets quotes a total. *)
Definition no_total (ms : list market) : Prop :=
  Forall (fun m => ∀ q, ¬ quotes_total m q) ms.

(** [p] is the total of the first market, in order, that quotes one. *)
Definition first_total (ms : list market) (p : Q) : Prop :=
  ∃ before m after,
    ms = before ++ m :: after ∧ quotes_total m p ∧ no_total before.

(** The normalizer in the words of the specification: lowercase; "&"
    becomes "and"; every character that is not a lowercase letter, a
    digit or whitespace becomes a space; the whole words university,
    college, state, st, the, of are removed; whitespace is collapsed and
    trimmed. *)
Definition SPEC_NOISE_TOKENS : list string :=
  ["university"; "college"; "state"; "st"; "the"; "of"].

Definition normalize_spec (name : string) : string :=
  let s := Re.sub_punctuation (Py.replace_char "&" "and" (Py.lower name)) in
  Py.join " " (filter (fun token => token ∉ SPEC_NOISE_TOKENS) (Py.split s)).

(** A three-character word that starts with "st". *)
Definition st_word (token : string) : bool :=
  match token with
  | String a (String b (String _ EmptyString)) =>
      bool_decide ("s"%char = a) && bool_decide ("t"%char = b)
  | _ => false
  end.

(** The tokens [normalize_team_name] removes. *)
Definition dropped (token : string) : Prop :=
  token ∈ SPEC_NOISE_TOKENS ∨ st_word token = true.

Global Instance dropped_dec (token : string) : Decision (dropped token).
Proof. unfold dropped. apply _. Defined.

(** Token structure of a string: the characters kept by the punctuation
    step are token characters or whitespace; a string is read as a token
    followed by the rest, which is empty or starts with whitespace. *)
Definition token_char (c : ascii) : bool := Py.is_lower c || Py.is_digit c.

Fixpoint all_chars (P : ascii -> bool) (s : string) : bool :=
  match s with
  | EmptyString => true
  | String c s' => P c && all_chars P s'
  end.

Definition clean (s : string) : bool :=
  all_chars (fun c => token_char c || Py.isspace c) s.

Definition at_break (s : string) : bool :=
  match s with
  | EmptyString => true
  | String c _ => Py.isspace c
  end.

Fixpoint take_token (s : string) : string :=
  match s with
  | EmptyString => EmptyString
  | String c s' => if Py.isspace c then EmptyString else String c (take_token s')
  end.

Fixpoint drop_token (s : string) : string :=
  match s with
  | EmptyString => EmptyString
  | String c s' => if Py.isspace c then s else drop_token s'
  end.

(** A pattern decides a token the way [hit] says: tried at the start of
    a token, it matches exactly when [hit] holds, and then it covers the
    whole token. *)
Definition token_ok (pat : list Re.atom) (hit : string -> bool) (t : string) : Prop :=
  ∀ prev rest, at_break rest = true ->
    Re.match_here pat prev (t +:+ rest) = hit t
    ∧ (hit t = true -> String.length t = length pat).

(** The period label the row builder filters on and shows:
    [(g.get("currentPeriod") or "").upper()]. *)
Definition period_label (gwrap : game_wrap) : string :=
  Py.upper (Py.or_else (currentPeriod (default no_game (gw_game gwrap))) "").

(** The address [get_game_play_by_play] requests for a game path. *)
Definition play_by_play_url (path : string) : string :=
  NCAA_BASE_URL +:+ path +:+ "/play-by-play".

(** The row the loop body appends, as a function of what it has gathered:
    the labels, the first-half statistics and the matched total. *)
Definition row_of (matchup state period : string) (stats_1h : option half_stats)
    (total : option Q) (book : option string) : row :=
  let line :=
    match stats_1h, total with
    | Some st, Some total =>
        Some (total - inject_Z (home_pts_1h st + away_pts_1h st))%Q
    | _, _ => None
    end in
  let eval_result :=
    match stats_1h, line with
    | Some st, Some line =>
        Some (evaluate_bet (integer st) (inject_Z (home_pts_1h st))
                (inject_Z (away_pts_1h st)) line)
    | _, _ => None
    end in
  {| matchup := matchup; state := state; r_period := period;
     r_integer := integer <$> stats_1h;
     r_fga := fga <$> stats_1h;
     r_fta := fta <$> stats_1h;
     r_to := turnovers <$> stats_1h;
     half_score :=
       (fun st => str_of_int (away_pts_1h st) +:+ "-" +:+ str_of_int (home_pts_1h st))
         <$> stats_1h;
     full_game_total := total;
     full_game_book := book;
     derived_2h_line := line;
     r_qualifies := qualifies <$> eval_result;
     r_lean := lean <$> eval_result;
     r_diff_line := diff_line <$> eval_result;
     r_score_diff := score_diff <$> eval_result |}.

(** * Properties *)

(** ** Betting evaluator *)

Lemma Qgeb_true (x y : Q) : Qgeb x y = true <-> (y <= x)%Q.
Proof. unfold Qgeb. apply Qle_bool_iff. Qed.

Lemma Qltb_true (x y : Q) : Qltb x y = true <-> (x < y)%Q.
Proof.
  unfold Qltb. rewrite negb_true_iff, <- not_true_iff_false, Qle_bool_iff.
  split; [apply Qnot_le_lt | apply Qlt_not_le].
Qed.

Lemma Qltb_false (x y : Q) : Qltb x y = false <-> (y <= x)%Q.
Proof.
  rewrite <- not_true_iff_false, Qltb_true.
  split; [apply Qnot_lt_le | apply Qle_not_lt].
Qed.



(** ** Team-name matcher *)

(** C10. [teams_match_name] is symmetric in its two names. *)
Theorem teams_match_name_sym (a b : option string) :
  teams_match_name a b = teams_match_name b a.
Proof.
  unfold teams_match_name.
  generalize (normalize_team_name a) (normalize_team_name b); intros x y.
  rewrite (orb_comm (Py.falsy x)), (orb_comm (Py.contains x y)).
  by rewrite (comm_L (∩) (token_set x)).
Qed.

(** ** Half statistics aggregator *)

Lemma count_plays_snoc (plays : list play) (p : play) :
  count_plays (plays ++ [p]) = count_play (count_plays plays) p.
Proof. unfold count_plays. by rewrite foldl_app. Qed.

(** C4. A play whose lowercased text contains "free throw" adds to the
    free-throw attempts: 2 for "both free throws"; otherwise 3 for "all
    three", "all 3", "three" or "3 free throws"; otherwise 2 for "two" or
    "2 free throws"; otherwise 1. *)
Theorem free_throw_attempts_counted (plays : list play) (p : play) :
  Py.contains "free throw" (Py.lower (description p)) = true ->
  t_fta (count_plays (plays ++ [p])) =
    t_fta (count_plays plays) +
    (if Py.contains "both free throws" (Py.lower (description p)) then 2
     else if Py.contains "all three free throws" (Py.lower (description p))
             || Py.contains "all 3 free throws" (Py.lower (description p))
             || Py.contains "three free throws" (Py.lower (description p))
             || Py.contains "3 free throws" (Py.lower (description p)) then 3
     else if Py.contains "two free throws" (Py.lower (description p))
             || Py.contains "2 free throws" (Py.lower (description p)) then 2
     else 1).
Proof.
  intros Hft. rewrite count_plays_snoc. unfold count_play; cbn [t_fta].
  f_equal. unfold free_throw_increment. rewrite Hft.
  destruct (Py.contains "both free throws" _); [done|].
  destruct (Py.contains "all three free throws" _); [done|].
  destruct (Py.contains "all 3 free throws" _); [done|].
  destruct (Py.contains "three free throws" _); [done|].
  by destruct (Py.contains "3 free throws" _).
Qed.

Lemma free_throw_attempts_counted_witness :
  t_fta (count_plays ([text_play "Smith made Free Throw"]
                        ++ [text_play "Jones makes all 3 free throws"])) = 1 + 3.
Proof.
  apply (free_throw_attempts_counted
           [text_play "Smith made Free Throw"]
           (text_play "Jones makes all 3 free throws")).
  reflexivity.
Defined.

(** C2, as the code has it. A play never adds to both the free-throw and
    the field-goal attempts; the turnover count is kept by a check of its
    own, whatever the other two did. *)
Theorem free_throw_excludes_field_goal (plays : list play) (p : play) :
  t_fta (count_plays (plays ++ [p])) = t_fta (count_plays plays)
  ∨ t_fga (count_plays (plays ++ [p])) = t_fga (count_plays plays).
Proof.
  rewrite count_plays_snoc. unfold count_play; cbn [t_fta t_fga].
  unfold free_throw_increment, field_goal_increment.
  destruct (Py.contains "free throw" _).
  - right. rewrite andb_false_r. lia.
  - left. lia.
Qed.

(** C2, as stated, fails: one text adds to the field-goal attempts and to
    the turnovers, another to the free-throw attempts and to the turnovers. *)
Lemma one_play_two_counters :
  (t_fga (count_play tally0 (text_play "Turnover by Smith on the layup")) = 1
   ∧ t_turnovers (count_play tally0 (text_play "Turnover by Smith on the layup")) = 1)
  ∧ (t_fta (count_play tally0 (text_play "Free throw lane violation, turnover on Jones")) = 1
     ∧ t_turnovers
         (count_play tally0 (text_play "Free throw lane violation, turnover on Jones")) = 1).
Proof. vm_compute. auto. Qed.

Lemma last_seen_snoc (f : play -> option Z) (plays : list play) (p : play) :
  last_seen f (plays ++ [p]) = default (last_seen f plays) (f p).
Proof.
  unfold last_seen. rewrite omap_app. simpl.
  destruct (f p) as [v|]; simpl.
  - by rewrite last_snoc.
  - by rewrite app_nil_r.
Qed.

Lemma count_plays_scores (plays : list play) :
  last_home_score (count_plays plays) = last_seen homeScore plays
  ∧ last_visitor_score (count_plays plays) = last_seen visitorScore plays.
Proof.
  induction plays as [|p plays [IHh IHv]] using rev_ind; [done|].
  rewrite count_plays_snoc, !last_seen_snoc.
  unfold count_play; cbn [last_home_score last_visitor_score].
  by rewrite IHh, IHv.
Qed.

Lemma running_scores_snoc (plays : list play) (p : play) :
  last_home_score (count_plays (plays ++ [p]))
    = default (last_home_score (count_plays plays)) (homeScore p)
  ∧ last_visitor_score (count_plays (plays ++ [p]))
    = default (last_visitor_score (count_plays plays)) (visitorScore p).
Proof. by rewrite count_plays_snoc. Qed.

(** C9. The running scores start at 0; each play sets a running score to
    the score it carries and leaves it as it was when it carries none;
    the statistics of a game report, as first-half scores, the running
    scores after the last play of its period 1, which are the last scores
    seen among those plays. *)
Theorem first_half_scores_carry_forward (pbp : pbp_data) (first_half : period) :
  List.find is_period_one (default [] (periods pbp)) = Some first_half ->
  (last_home_score (count_plays []) = 0 ∧ last_visitor_score (count_plays []) = 0)
  ∧ (∀ plays p,
       last_home_score (count_plays (plays ++ [p]))
         = match homeScore p with
           | Some score => score
           | None => last_home_score (count_plays plays)
           end
       ∧ last_visitor_score (count_plays (plays ++ [p]))
         = match visitorScore p with
           | Some score => score
           | None => last_visitor_score (count_plays plays)
           end)
  ∧ ∃ st, compute_first_half_stats_from_pbp pbp = Some st
          ∧ home_pts_1h st
            = last_home_score (count_plays (default [] (playbyplayStats first_half)))
          ∧ away_pts_1h st
            = last_visitor_score (count_plays (default [] (playbyplayStats first_half)))
          ∧ home_pts_1h st
            = last_seen homeScore (default [] (playbyplayStats first_half))
          ∧ away_pts_1h st
            = last_seen visitorScore (default [] (playbyplayStats first_half)).
Proof.
  intros Hfind. split; [done|]. split.
  - intros plays p. destruct (running_scores_snoc plays p) as [-> ->].
    by destruct (homeScore p), (visitorScore p).
  - unfold compute_first_half_stats_from_pbp.
    destruct (default [] (periods pbp)) as [|p0 ps] eqn:Hps; [done|].
    rewrite Hfind. eexists; split; [done|].
    destruct (count_plays_scores (default [] (playbyplayStats first_half))) as [Hh Hv].
    cbn [stats_of_tally home_pts_1h away_pts_1h]. by rewrite Hh, Hv.
Qed.

Lemma first_half_scores_carry_forward_witness :
  ∃ st, compute_first_half_stats_from_pbp {| periods := Some [sample_period] |} = Some st
        ∧ home_pts_1h st = 2 ∧ away_pts_1h st = 3.
Proof.
  destruct (first_half_scores_carry_forward
              {| periods := Some [sample_period] |} sample_period eq_refl)
    as (_ & _ & st & Hst & Hh & Hv & _).
  exists st. split; [exact Hst|]. split; [exact Hh | exact Hv].
Defined.

(** ** Game pairing engine *)

Lemma teams_match_name_default (n o : option string) :
  teams_match_name n (Some (default "" o)) = teams_match_name n o.
Proof. by destruct o. Qed.

Lemma teams_match_name_truthy (n o : option string) :
  teams_match_name n o = true -> Py.truthy n = true.
Proof. by destruct n as [[|c s]|]. Qed.

Lemma any_name_matches_nonempty (names : list (option string)) (o : option string) :
  any_name_matches names (Some (default "" o)) = true
  <-> some_nonempty_variant_matches names o.
Proof.
  unfold any_name_matches, some_nonempty_variant_matches.
  rewrite existsb_exists. split.
  - intros (n & Hin & Hm). exists n.
    apply list_elem_of_In, list_elem_of_filter in Hin as [Ht Hin].
    rewrite teams_match_name_default in Hm.
    split; [done|]. split; [by apply Is_true_true|done].
  - intros (n & Hin & Ht & Hm). exists n. split.
    + apply list_elem_of_In, list_elem_of_filter. split; [by apply Is_true_true|done].
    + by rewrite teams_match_name_default.
Qed.

Lemma some_variant_matches_nonempty (names : list (option string)) (o : option string) :
  some_variant_matches names o <-> some_nonempty_variant_matches names o.
Proof.
  split.
  - intros (n & Hin & Hm). exists n. eauto using teams_match_name_truthy.
  - intros (n & Hin & _ & Hm). by exists n.
Qed.

(** The two tests of the loop body decide [pairs_with]. *)
Lemma pairs_with_decided (hn an : list (option string)) (ev : odds_event) :
  any_name_matches hn (Some (default "" (home_team ev)))
    && any_name_matches an (Some (default "" (away_team ev)))
  || any_name_matches hn (Some (default "" (away_team ev)))
    && any_name_matches an (Some (default "" (home_team ev))) = true
  <-> pairs_with hn an ev.
Proof.
  unfold pairs_with.
  rewrite orb_true_iff, !andb_true_iff, !any_name_matches_nonempty,
    !some_variant_matches_nonempty.
  done.
Qed.

(** C7. [find_matching_odds_event] returns the first event, in source
    order, that pairs with the game in normal or in swapped alignment: no
    event before the returned one pairs, and [None] is returned only when
    no event pairs at all. *)
Theorem find_matching_odds_event_first (odds_games : list odds_event)
    (home_names away_names : list (option string)) :
  match find_matching_odds_event odds_games home_names away_names with
  | Some ev =>
      ∃ before after,
        odds_games = before ++ ev :: after
        ∧ pairs_with home_names away_names ev
        ∧ Forall (fun e => ¬ pairs_with home_names away_names e) before
  | None => Forall (fun e => ¬ pairs_with home_names away_names e) odds_games
  end.
Proof.
  induction odds_games as [|event rest IH]; [by apply Forall_nil|].
  pose proof (pairs_with_decided home_names away_names event) as Hdec.
  cbn [find_matching_odds_event].
  destruct (any_name_matches home_names (Some (default "" (home_team event)))
            && any_name_matches away_names (Some (default "" (away_team event)))) eqn:Hab.
  { exists [], rest. split; [done|]. split; [by apply Hdec|by apply Forall_nil]. }
  destruct (any_name_matches home_names (Some (default "" (away_team event)))
            && any_name_matches away_names (Some (default "" (home_team event)))) eqn:Hsw.
  { exists [], rest. split; [done|]. split; [by apply Hdec|by apply Forall_nil]. }
  assert (¬ pairs_with home_names away_names event) as Hno.
  { intros H%Hdec. done. }
  destruct (find_matching_odds_event rest home_names away_names) as [ev|].
  - destruct IH as (before & after & -> & Hev & Hbefore).
    exists (event :: before), after. split; [done|]. split; [done|].
    by apply Forall_cons.
  - by apply Forall_cons.
Qed.

(** ** Market total extractor *)

Lemma scan_markets_cons (m : market) (ms : list market) :
  (∀ q, ¬ quotes_total m q) -> scan_markets (m :: ms) = scan_markets ms.
Proof.
  intros Hno. cbn [scan_markets]. case_bool_decide as Hk; [|done].
  destruct (outcomes m) as [[|first others]|] eqn:Ho; simpl; try done.
  destruct (point first) as [p|] eqn:Hp; [|done].
  destruct (Hno p). split; [done|]. by exists first, others.
Qed.

Lemma scan_markets_hit (m : market) (ms : list market) (p : Q) :
  quotes_total m p -> scan_markets (m :: ms) = Some p.
Proof.
  intros (Hk & first & others & Ho & Hp). cbn [scan_markets].
  rewrite bool_decide_eq_true_2 by done. by rewrite Ho; simpl; rewrite Hp.
Qed.

Lemma scan_markets_spec (ms : list market) :
  match scan_markets ms with
  | Some p => first_total ms p
  | None => no_total ms
  end.
Proof.
  induction ms as [|m ms IH]; [by apply Forall_nil|].
  assert ((∃ p, quotes_total m p) ∨ (∀ q, ¬ quotes_total m q)) as [[p Hp]|Hno].
  { destruct (decide (market_key m = Some "totals")) as [Hk|Hk];
      [|right; intros q [? _]; done].
    destruct (outcomes m) as [[|first others]|] eqn:Ho;
      [right; intros q (_ & ? & ? & ? & _); congruence|
      |right; intros q (_ & ? & ? & ? & _); congruence].
    destruct (point first) as [p|] eqn:Hp.
    - left. exists p. split; [done|]. by exists first, others.
    - right. intros q (_ & ? & ? & ? & Hq). congruence. }
  - rewrite (scan_markets_hit _ _ _ Hp).
    exists [], m, ms. split; [done|]. split; [done|by apply Forall_nil].
  - rewrite (scan_markets_cons _ _ Hno).
    destruct (scan_markets ms) as [p|].
    + destruct IH as (before & m' & after & -> & Hq & Hbefore).
      exists (m :: before), m', after. split; [done|]. split; [done|].
      by apply Forall_cons.
    + by apply Forall_cons.
Qed.

Lemma bm_by_key_snoc (bms : list bookmaker) (bm : bookmaker) :
  bm_by_key (bms ++ [bm]) = <[bm_key bm := bm]> (bm_by_key bms).
Proof. unfold bm_by_key. by rewrite foldl_app. Qed.

Lemma bm_by_key_lookup_Some (bms : list bookmaker) (k : option string) (bm : bookmaker) :
  bm_by_key bms !! k = Some bm -> bm ∈ bms ∧ bm_key bm = k.
Proof.
  induction bms as [|b bms IH] using rev_ind; [done|].
  rewrite bm_by_key_snoc, lookup_insert. case_decide as Hk.
  - intros [= ->]. split; [|done]. apply elem_of_app. right. by left.
  - intros [Hin Hkey]%IH. split; [|done]. apply elem_of_app. by left.
Qed.

Lemma bm_by_key_lookup_nodup (bms : list bookmaker) (k : option string) (bm : bookmaker) :
  NoDup (bm_key <$> bms) ->
  bm ∈ bms -> bm_key bm = k -> bm_by_key bms !! k = Some bm.
Proof.
  induction bms as [|b bms IH] using rev_ind; [by intros _ ?%elem_of_nil|].
  rewrite fmap_app. intros (Hnd & Hfresh & _)%NoDup_app Hin <-.
  rewrite bm_by_key_snoc, lookup_insert.
  apply elem_of_app in Hin as [Hin|Hin].
  - case_decide as Hk.
    + destruct (Hfresh (bm_key bm)).
      * by apply list_elem_of_fmap_2.
      * rewrite <- Hk. by left.
    + by apply IH.
  - apply list_elem_of_singleton in Hin as ->. by rewrite decide_True.
Qed.

Lemma bm_by_key_perm (bms bms' : list bookmaker) :
  NoDup (bm_key <$> bms) -> bms' ≡ₚ bms -> bm_by_key bms' = bm_by_key bms.
Proof.
  intros Hnd Hperm. apply map_eq; intros k. apply option_eq; intros bm.
  assert (NoDup (bm_key <$> bms')) as Hnd' by by rewrite Hperm.
  split; intros [Hin Hk]%bm_by_key_lookup_Some.
  - apply bm_by_key_lookup_nodup; [done| |done]. by rewrite <- Hperm.
  - apply bm_by_key_lookup_nodup; [done| |done]. by rewrite Hperm.
Qed.

(** What the priority loop returns, for any index and any list of keys. *)
Lemma scan_priority_spec (by_key : gmap (option string) bookmaker) (keys : list string) :
  match scan_priority by_key keys with
  | (Some p, Some label) =>
      ∃ i key bm,
        keys !! i = Some key
        ∧ by_key !! Some key = Some bm
        ∧ first_total (default [] (markets bm)) p
        ∧ label = Py.or_else (bm_title bm) key
        ∧ ∀ j key' bm', (j < i)%nat -> keys !! j = Some key' ->
            by_key !! Some key' = Some bm' -> no_total (default [] (markets bm'))
  | (None, None) =>
      ∀ key bm, key ∈ keys -> by_key !! Some key = Some bm ->
        no_total (default [] (markets bm))
  | _ => False
  end.
Proof.
  induction keys as [|key keys IH]; [by intros ?? ?%elem_of_nil|].
  cbn [scan_priority].
  destruct (by_key !! Some key) as [bm|] eqn:Hbm.
  - pose proof (scan_markets_spec (default [] (markets bm))) as Hscan.
    destruct (scan_markets (default [] (markets bm))) as [p|].
    + exists 0%nat, key, bm. repeat split; try done. intros; lia.
    + destruct (scan_priority by_key keys) as [[p|] [label|]]; try done.
      * destruct IH as (i & key0 & bm0 & Hi & Hbm0 & Hft & Hlabel & Hearlier).
        exists (S i), key0, bm0. repeat split; try done.
        intros [|j] key' bm' Hj Hkey' Hbm'.
        -- simpl in Hkey'. by simplify_eq.
        -- apply (Hearlier j key' bm'); [lia|done..].
      * intros key' bm' [->|Hin]%elem_of_cons Hbm'; [by simplify_eq|].
        by apply (IH key' bm').
  - destruct (scan_priority by_key keys) as [[p|] [label|]]; try done.
    + destruct IH as (i & key0 & bm0 & Hi & Hbm0 & Hft & Hlabel & Hearlier).
      exists (S i), key0, bm0. repeat split; try done.
      intros [|j] key' bm' Hj Hkey' Hbm'.
      * simpl in Hkey'. by simplify_eq.
      * apply (Hearlier j key' bm'); [lia|done..].
    + intros key' bm' [->|Hin]%elem_of_cons Hbm'; [by simplify_eq|].
      by apply (IH key' bm').
Qed.

(** C6, as the code has it. When the bookmaker keys of an event are
    pairwise distinct, the result does not depend on the order of its
    bookmakers, and it is the total of the first bookmaker, in the fixed
    priority order, that is present and quotes a total, labelled with
    that bookmaker's title (its key when it has no title): the total is
    the first outcome's point of the first "totals" market that has one.
    When no listed bookmaker quotes a total both components are [None]. *)
Theorem extract_by_priority (ev : odds_event) :
  NoDup (bm_key <$> default [] (bookmakers ev)) ->
  (∀ ev', default [] (bookmakers ev') ≡ₚ default [] (bookmakers ev) ->
     extract_full_game_total_with_book ev' = extract_full_game_total_with_book ev)
  ∧ match extract_full_game_total_with_book ev with
    | (Some p, Some label) =>
        ∃ i key bm,
          BOOKMAKER_PRIORITY !! i = Some key
          ∧ bm ∈ default [] (bookmakers ev)
          ∧ bm_key bm = Some key
          ∧ first_total (default [] (markets bm)) p
          ∧ label = Py.or_else (bm_title bm) key
          ∧ ∀ j key' bm', (j < i)%nat -> BOOKMAKER_PRIORITY !! j = Some key' ->
              bm' ∈ default [] (bookmakers ev) -> bm_key bm' = Some key' ->
              no_total (default [] (markets bm'))
    | (None, None) =>
        ∀ key bm, key ∈ BOOKMAKER_PRIORITY ->
          bm ∈ default [] (bookmakers ev) -> bm_key bm = Some key ->
          no_total (default [] (markets bm))
    | _ => False
    end.
Proof.
  intros Hnd. split.
  - intros ev' Hperm. unfold extract_full_game_total_with_book.
    by rewrite (bm_by_key_perm _ _ Hnd Hperm).
  - unfold extract_full_game_total_with_book.
    pose proof (scan_priority_spec (bm_by_key (default [] (bookmakers ev)))
                  BOOKMAKER_PRIORITY) as Hscan.
    destruct (scan_priority _ _) as [[p|] [label|]]; try done.
    + destruct Hscan as (i & key & bm & Hi & Hbm & Hft & Hlabel & Hearlier).
      apply bm_by_key_lookup_Some in Hbm as Hbm'. destruct Hbm' as [Hin Hkey].
      exists i, key, bm. repeat split; try done.
      intros j key' bm' Hj Hkey' Hin' Hk'.
      apply (Hearlier j key' bm'); [done..|].
      by apply bm_by_key_lookup_nodup.
    + intros key bm Hkey Hin Hk. apply (Hscan key bm); [done|].
      by apply bm_by_key_lookup_nodup.
Qed.

Lemma extract_by_priority_witness :
  extract_full_game_total_with_book
    (event_of [quote "fanduel" "FanDuel" 144.5; quote "draftkings" "DraftKings" 145])
  = (Some 145%Q, Some "DraftKings")
  ∧ extract_full_game_total_with_book
      (event_of [quote "draftkings" "DraftKings" 145; quote "fanduel" "FanDuel" 144.5])
    = extract_full_game_total_with_book
        (event_of [quote "fanduel" "FanDuel" 144.5; quote "draftkings" "DraftKings" 145]).
Proof.
  split; [vm_compute; reflexivity|].
  apply (extract_by_priority
           (event_of [quote "fanduel" "FanDuel" 144.5;
                      quote "draftkings" "DraftKings" 145])).
  - apply (bool_decide_unpack _). vm_compute. exact I.
  - apply perm_swap.
Defined.

(** C6, as stated, fails on an event that lists one bookmaker key twice:
    the quote listed last wins, so the order of the list decides. *)
Lemma duplicate_key_order_matters :
  [quote "draftkings" "DraftKings" 145; quote "draftkings" "DraftKings" 146]
    ≡ₚ [quote "draftkings" "DraftKings" 146; quote "draftkings" "DraftKings" 145]
  ∧ extract_full_game_total_with_book
      (event_of [quote "draftkings" "DraftKings" 145; quote "draftkings" "DraftKings" 146])
    = (Some 146%Q, Some "DraftKings")
  ∧ extract_full_game_total_with_book
      (event_of [quote "draftkings" "DraftKings" 146; quote "draftkings" "DraftKings" 145])
    = (Some 145%Q, Some "DraftKings").
Proof. split; [apply perm_swap|]. vm_compute. auto. Qed.


(** ** Row builder *)

Lemma rows_loop_skip (w : world) (odds_games : list odds_event)
    (before after : list game_wrap) (gwrap : game_wrap) (rows : list row) :
  game_row w odds_games gwrap = Return None ->
  rows_loop w odds_games (before ++ gwrap :: after) rows
  = rows_loop w odds_games (before ++ after) rows.
Proof.
  intros Hskip. revert rows.
  induction before as [|b before IH]; intros rows; simpl.
  - by rewrite Hskip.
  - destruct (game_row w odds_games b) as [r|e]; [|done]. simpl. apply IH.
Qed.

(** The loop reads the world only through its play-by-play replies. *)
Lemma game_row_ext (w w' : world) (odds_games : list odds_event) (gwrap : game_wrap) :
  http_get w = http_get w' ->
  game_row w odds_games gwrap = game_row w' odds_games gwrap.
Proof.
  intros Hget. unfold game_row, get_game_play_by_play. by rewrite Hget.
Qed.

Lemma rows_loop_ext (w w' : world) (odds_games : list odds_event)
    (games : list game_wrap) (rows : list row) :
  http_get w = http_get w' ->
  rows_loop w odds_games games rows = rows_loop w' odds_games games rows.
Proof.
  intros Hget. revert rows.
  induction games as [|g games IH]; intros rows; simpl; [done|].
  rewrite (game_row_ext w w' _ _ Hget).
  destruct (game_row w' odds_games g) as [r|e]; [|done]. simpl. apply IH.
Qed.

Lemma game_row_filtered (w : world) (odds_games : list odds_event) (gwrap : game_wrap) :
  shown (Py.upper (Py.or_else (currentPeriod (default no_game (gw_game gwrap))) "")) = false ->
  game_row w odds_games gwrap = Return None.
Proof. intros H. unfold game_row. by rewrite H. Qed.

(** C8, as the code has it. A game whose period label (uppercased, full
    stops removed) contains "FINAL" or "OT" and does not contain "HALF"
    gets no row, whether or not the label contains "1": the rows built
    are those built without that game. *)
Theorem final_or_overtime_excluded (w : world) (sb : scoreboard)
    (before after : list game_wrap) (gwrap : game_wrap) :
  let label :=
    period_clean
      (Py.upper (Py.or_else (currentPeriod (default no_game (gw_game gwrap))) "")) in
  Py.contains "FINAL" label || Py.contains "OT" label = true ->
  Py.contains "HALF" label = false ->
  scoreboard_today w = Return sb ->
  games sb = Some (before ++ gwrap :: after) ->
  (∀ odds_games, game_row w odds_games gwrap = Return None)
  ∧ build_dashboard_rows w
    = build_dashboard_rows
        {| scoreboard_today := Return {| games := Some (before ++ after) |};
           odds_today := odds_today w;
           http_get := http_get w |}.
Proof.
  intros label Hfinal Hhalf Hsb Hgames.
  assert (∀ odds_games, game_row w odds_games gwrap = Return None) as Hskip.
  { intros odds_games. apply game_row_filtered.
    unfold shown, is_first_half, is_halftime. fold label. rewrite Hhalf.
    apply orb_true_iff in Hfinal as [-> | ->]; simpl;
      by rewrite ?andb_false_r. }
  split; [done|].
  unfold build_dashboard_rows. rewrite Hsb, Hgames. cbn.
  destruct (odds_today w) as [odds_games|e]; [|done].
  rewrite (rows_loop_skip _ _ _ _ _ _ (Hskip odds_games)).
  by rewrite (rows_loop_ext w
                {| scoreboard_today := Return {| games := Some (before ++ after) |};
                   odds_today := Return odds_games;
                   http_get := http_get w |}).
Qed.

Lemma final_or_overtime_excluded_witness :
  build_dashboard_rows (quiet_world [first_half_game; overtime_final_game; halftime_game])
  = build_dashboard_rows
      {| scoreboard_today := Return {| games := Some [first_half_game; halftime_game] |};
         odds_today := Return [];
         http_get := fun _ => NoReply "unreachable" |}.
Proof.
  exact (proj2 (final_or_overtime_excluded
                  (quiet_world [first_half_game; overtime_final_game; halftime_game])
                  {| games := Some [first_half_game; overtime_final_game; halftime_game] |}
                  [first_half_game] [halftime_game] overtime_final_game
                  eq_refl eq_refl eq_refl eq_refl)).
Defined.

(** C8, as stated, fails: the label "OT HALF" contains "OT", and the game
    is kept as a halftime game. *)
Lemma overtime_halftime_row_built :
  Py.contains "OT" (period_clean (Py.upper "OT Half")) = true
  ∧ build_dashboard_rows overtime_world = Return ([overtime_row], None).
Proof. vm_compute. auto. Qed.

(** C3, checked on the code. A play-by-play request that gets no reply,
    or a reply with an error status, yields [None]; a reply with a good
    status whose body does not parse raises [JSONDecodeError] out of
    [get_game_play_by_play], and out of [build_dashboard_rows]: in
    [garbled_world] no row is returned for any of the three games. *)
Theorem play_by_play_parse_failure_escapes :
  (∀ w path msg,
     http_get w (NCAA_BASE_URL +:+ path +:+ "/play-by-play") = NoReply msg ->
     get_game_play_by_play w (Some path) = Return None)
  ∧ (∀ w path status body,
       http_get w (NCAA_BASE_URL +:+ path +:+ "/play-by-play") = Reply status body ->
       400 ≤ status < 600 ->
       get_game_play_by_play w (Some path) = Return None)
  ∧ (∀ w path status msg,
       Py.truthy (Some path) = true ->
       http_get w (NCAA_BASE_URL +:+ path +:+ "/play-by-play")
         = Reply status (NotJson msg) ->
       ¬ (400 ≤ status < 600) ->
       get_game_play_by_play w (Some path) = Raise (JSONDecodeError msg))
  ∧ get_game_play_by_play garbled_world (Some "/game/2")
    = Raise (JSONDecodeError "Expecting value: line 1 column 1 (char 0)")
  ∧ build_dashboard_rows garbled_world
    = Raise (JSONDecodeError "Expecting value: line 1 column 1 (char 0)").
Proof.
  split; [|split; [|split; [|split]]].
  - intros w path msg Hget. unfold get_game_play_by_play.
    destruct (Py.truthy (Some path)); [|done]. cbn [negb default from_option id]. by rewrite Hget.
  - intros w path status body Hget Hstatus. unfold get_game_play_by_play.
    destruct (Py.truthy (Some path)); [|done]. cbn [negb default from_option id]. rewrite Hget.
    unfold raise_for_status. by rewrite bool_decide_eq_true_2.
  - intros w path status msg Hpath Hget Hstatus. unfold get_game_play_by_play.
    rewrite Hpath. cbn [negb default from_option id]. rewrite Hget.
    unfold raise_for_status. by rewrite bool_decide_eq_false_2.
  - vm_compute. reflexivity.
  - vm_compute. reflexivity.
Qed.

(** ** Team-name normalizer *)

(** *** Character classes *)

Lemma token_char_word (c : ascii) : token_char c = true -> Py.is_word c = true.
Proof.
  unfold token_char, Py.is_word. intros [->| ->]%orb_true_iff; [done|].
  by rewrite !orb_true_r.
Qed.

Lemma token_char_not_space (c : ascii) : token_char c = true -> Py.isspace c = false.
Proof.
  unfold token_char, Py.isspace, Py.is_lower, Py.is_digit, Py.between.
  generalize (Py.code c); intros n H.
  apply orb_true_iff in H as [[H1 H2]%andb_true_iff|[H1 H2]%andb_true_iff];
    apply N.leb_le in H1, H2.
  all: rewrite !orb_false_iff, !andb_false_iff, !N.leb_gt, N.eqb_neq; lia.
Qed.

Lemma space_not_word (c : ascii) : Py.isspace c = true -> Py.is_word c = false.
Proof.
  unfold Py.is_word, Py.isspace, Py.is_lower, Py.is_upper, Py.is_digit, Py.between.
  generalize (Py.code c); intros n H.
  rewrite !orb_false_iff, !andb_false_iff, !N.leb_gt, N.eqb_neq.
  rewrite !orb_true_iff, !andb_true_iff, !N.leb_le, N.eqb_eq in H. lia.
Qed.

Lemma token_char_not_newline (c : ascii) : token_char c = true -> Re.atom_matches Re.Dot c = true.
Proof.
  unfold token_char, Re.atom_matches, Py.is_lower, Py.is_digit, Py.between.
  generalize (Py.code c); intros n H.
  apply negb_true_iff, N.eqb_neq.
  rewrite !orb_true_iff, !andb_true_iff, !N.leb_le in H. lia.
Qed.

(** *** Strings as a token and a rest *)

Lemma app_cons (c : ascii) (s r : string) : String c s +:+ r = String c (s +:+ r).
Proof. reflexivity. Qed.

Lemma take_drop_token (s : string) : take_token s +:+ drop_token s = s.
Proof.
  induction s as [|c s IH]; [done|]. simpl.
  destruct (Py.isspace c); [done|]. by rewrite app_cons, IH.
Qed.

Lemma drop_token_at_break (s : string) : at_break (drop_token s) = true.
Proof.
  induction s as [|c s IH]; [done|]. simpl.
  by destruct (Py.isspace c) eqn:Hc.
Qed.

Lemma drop_token_length (s : string) : (String.length (drop_token s) <= String.length s)%nat.
Proof.
  induction s as [|c s IH]; [done|]. simpl.
  destruct (Py.isspace c); simpl; lia.
Qed.

Lemma take_token_chars (s : string) :
  clean s = true -> all_chars token_char (take_token s) = true.
Proof.
  induction s as [|c s IH]; [done|]. unfold clean; simpl.
  intros [Hc Hs]%andb_true_iff. destruct (Py.isspace c) eqn:Hsp; [done|].
  rewrite orb_false_r in Hc. simpl. by rewrite Hc, (IH Hs).
Qed.

Lemma drop_token_clean (s : string) : clean s = true -> clean (drop_token s) = true.
Proof.
  induction s as [|c s IH]; [done|]. unfold clean; simpl.
  intros [Hc Hs]%andb_true_iff. destruct (Py.isspace c) eqn:Hsp.
  - simpl. by rewrite Hsp, orb_true_r.
  - by apply IH.
Qed.

(** *** [split] on a token and a rest *)

Lemma split_go_token (t rest cur : string) :
  all_chars token_char t = true ->
  Py.split_go cur (t +:+ rest) = Py.split_go (String.rev_app t cur) rest.
Proof.
  revert cur. induction t as [|c t IH]; intros cur; [done|].
  simpl. intros [Hc Ht]%andb_true_iff.
  rewrite (token_char_not_space _ Hc). by apply IH.
Qed.

Lemma rev_app_cons_inv (t : string) (c : ascii) (cur : string) :
  ∃ d u, String.rev_app t (String c cur) = String d u.
Proof. revert c cur. induction t as [|a t IH]; intros c cur; simpl; eauto. Qed.

Lemma rev_app_rev (t cur : string) :
  String.rev (String.rev_app t cur) = String.rev cur +:+ t.
Proof.
  revert cur. induction t as [|a t IH]; intros cur; simpl.
  - induction (String.rev cur); [done|]. by rewrite app_cons, <- IHs.
  - rewrite IH. unfold String.rev. simpl.
    assert (∀ x y, String.rev_app x y = String.rev_app x "" +:+ y) as Hsplit.
    { clear. induction x as [|b x IHx]; intros y; [done|]. simpl.
      rewrite (IHx (String b y)), (IHx (String b "")).
      generalize (String.rev_app x ""). clear.
      induction s as [|d s IHs]; [done|]. by rewrite !app_cons, IHs. }
    rewrite (Hsplit cur (String a "")).
    generalize (String.rev_app cur ""). clear.
    induction s as [|d s IHs]; [done|]. by rewrite !app_cons, IHs.
Qed.

Lemma split_token (c : ascii) (t rest : string) :
  all_chars token_char (String c t) = true ->
  at_break rest = true ->
  Py.split (String c t +:+ rest) = String c t :: Py.split rest.
Proof.
  intros Ht Hrest. unfold Py.split. rewrite (split_go_token _ _ _ Ht).
  assert (String.rev (String.rev_app (String c t) "") = String c t) as Hrev.
  { by rewrite rev_app_rev. }
  destruct (rev_app_cons_inv t c "") as (d & u & Hdu).
  simpl in Hrev |- *. rewrite Hdu in Hrev |- *.
  destruct rest as [|w rest]; simpl; [by rewrite Hrev|].
  simpl in Hrest. by rewrite Hrest, Hrev.
Qed.

Lemma split_space (c : ascii) (s : string) :
  Py.isspace c = true -> Py.split (String c s) = Py.split s.
Proof. intros Hc. unfold Py.split. simpl. by rewrite Hc. Qed.

(** *** One [re.sub] of a word pattern, token by token *)

Section sub_word.
Variable pat : list Re.atom.
Variable hit : string -> bool.
Hypothesis pat_not_at_space :
  ∀ prev c s, Py.isspace c = true -> Re.match_here pat prev (String c s) = false.

Lemma sub_word_go_clean (s : string) (k : nat) (prev : option ascii) :
  clean s = true -> clean (Re.sub_word_go pat k prev s) = true.
Proof.
  revert k prev. induction s as [|c s IH]; intros k prev; [done|].
  unfold clean; simpl. intros [Hc Hs]%andb_true_iff.
  destruct k as [|k]; [|by apply IH].
  destruct (Re.boundary prev (Some c) && Re.match_here pat prev (String c s)); simpl.
  - by apply IH.
  - rewrite Hc. by apply IH.
Qed.

Lemma sub_word_go_at_space (c : ascii) (s : string) (prev : option ascii) :
  Py.isspace c = true ->
  Re.sub_word_go pat 0 prev (String c s) = String c (Re.sub_word_go pat 0 (Some c) s).
Proof.
  intros Hc. simpl. by rewrite (pat_not_at_space _ _ _ Hc), andb_false_r.
Qed.

Lemma sub_word_go_at_break (rest : string) (prev : option ascii) :
  at_break rest = true -> at_break (Re.sub_word_go pat 0 prev rest) = true.
Proof.
  destruct rest as [|c r]; [done|]. intros Hc. simpl in Hc.
  by rewrite sub_word_go_at_space.
Qed.

(** Inside a token no boundary is found: the token is copied. *)
Lemma sub_word_go_run (t rest : string) (prev : option ascii) :
  Re.word_at prev = true -> all_chars token_char t = true ->
  ∃ prev', Re.word_at prev' = true
           ∧ Re.sub_word_go pat 0 prev (t +:+ rest)
             = t +:+ Re.sub_word_go pat 0 prev' rest.
Proof.
  revert prev. induction t as [|c t IH]; intros prev Hprev Ht.
  { by exists prev. }
  simpl in Ht. apply andb_true_iff in Ht as [Hc Ht].
  destruct (IH (Some c)) as (prev' & Hprev' & Heq); [by apply token_char_word|done|].
  exists prev'. split; [done|].
  rewrite !app_cons. simpl. unfold Re.boundary at 1. rewrite Hprev. simpl.
  rewrite (token_char_word _ Hc). simpl. by rewrite Heq.
Qed.

(** The characters of a match are skipped. *)
Lemma sub_word_go_skip (t rest : string) (prev : option ascii) :
  Re.word_at prev = true -> all_chars token_char t = true ->
  ∃ prev', Re.word_at prev' = true
           ∧ Re.sub_word_go pat (String.length t) prev (t +:+ rest)
             = Re.sub_word_go pat 0 prev' rest.
Proof.
  revert prev. induction t as [|c t IH]; intros prev Hprev Ht.
  { by exists prev. }
  simpl in Ht. apply andb_true_iff in Ht as [Hc Ht].
  destruct (IH (Some c)) as (prev' & Hprev' & Heq); [by apply token_char_word|done|].
  exists prev'. split; [done|]. by rewrite app_cons.
Qed.

Lemma sub_word_go_tokens (n : nat) (s : string) (prev : option ascii) :
  (String.length s <= n)%nat ->
  clean s = true ->
  (∀ t, t ∈ Py.split s -> all_chars token_char t = true -> t ≠ "" -> token_ok pat hit t) ->
  (Re.word_at prev = true -> at_break s = true) ->
  Py.split (Re.sub_word_go pat 0 prev s) = filter (fun t => hit t = false) (Py.split s).
Proof.
  revert s prev. induction n as [|n IH]; intros s prev Hlen Hclean Hok Hprev.
  { destruct s; [done|simpl in Hlen; lia]. }
  destruct s as [|c s]; [done|].
  destruct (Py.isspace c) eqn:Hsp.
  - rewrite (sub_word_go_at_space _ _ _ Hsp), !(split_space _ _ Hsp).
    unfold clean in Hclean; simpl in Hclean.
    apply andb_true_iff in Hclean as [_ Hclean].
    apply IH; [simpl in Hlen; lia|done| |].
    + intros t Ht. apply Hok. by rewrite (split_space _ _ Hsp).
    + simpl. by rewrite (space_not_word _ Hsp).
  - assert (Re.word_at prev = false) as Hnw.
    { destruct (Re.word_at prev); [|done]. specialize (Hprev eq_refl).
      simpl in Hprev. congruence. }
    pose proof (take_token_chars _ Hclean) as Htok.
    pose proof (drop_token_clean _ Hclean) as Hrest_clean.
    pose proof (drop_token_at_break (String c s)) as Hbreak.
    pose proof (take_drop_token (String c s)) as Hsplit.
    simpl in Htok, Hrest_clean, Hbreak, Hsplit. rewrite Hsp in *.
    set (tt := take_token s) in *. set (rest := drop_token s) in *.
    assert (String.length rest <= n)%nat as Hlen_rest.
    { pose proof (drop_token_length s). simpl in Hlen. subst rest. lia. }
    assert (Py.split (String c s) = String c tt :: Py.split rest) as Htokens.
    { rewrite <- Hsplit. by apply split_token. }
    rewrite Htokens in Hok |- *.
    destruct (Hok (String c tt)) with (prev := prev) (rest := rest)
      as [Hmatch Hcover]; [by left|done|done|done|].
    simpl in Htok. apply andb_true_iff in Htok as [Hc Htt].
    assert (∀ prev', Py.split (Re.sub_word_go pat 0 prev' rest)
                     = filter (fun t => hit t = false) (Py.split rest)) as Hrest.
    { intros prev'. apply IH; [done|done| |done].
      intros t Ht. apply Hok. by right. }
    rewrite <- Hsplit. simpl.
    unfold Re.boundary at 1. rewrite Hnw. simpl. rewrite (token_char_word _ Hc). simpl.
    rewrite app_cons in Hmatch. rewrite Hmatch.
    destruct (hit (String c tt)) eqn:Hhit.
    + specialize (Hcover eq_refl). simpl in Hcover. rewrite <- Hcover. simpl.
      destruct (sub_word_go_skip tt rest (Some c)) as (prev' & _ & ->);
        [by apply token_char_word|done|].
      rewrite split_space by done. rewrite Hrest.
      rewrite filter_cons_False; [done|]. by rewrite Hhit.
    + destruct (sub_word_go_run tt rest (Some c)) as (prev' & _ & ->);
        [by apply token_char_word|done|].
      rewrite <- app_cons, split_token.
      * rewrite Hrest. by rewrite filter_cons_True.
      * simpl. by rewrite Hc, Htt.
      * by apply sub_word_go_at_break.
Qed.

End sub_word.

(** *** The patterns of the noise words *)

Lemma token_char_not_dot (a : ascii) : token_char a = true -> a ≠ "."%char.
Proof. intros H ->. vm_compute in H. discriminate. Qed.

Lemma atoms_length (w : string) : length (Re.atoms w) = String.length w.
Proof. induction w as [|a w IH]; [done|]. simpl. by rewrite IH. Qed.

Lemma match_here_literal (w t rest : string) (prev : option ascii) :
  all_chars token_char w = true -> all_chars token_char t = true ->
  at_break rest = true -> (w = "" -> Re.word_at prev = true) ->
  Re.match_here (Re.atoms w) prev (t +:+ rest) = bool_decide (t = w).
Proof.
  revert t prev. induction w as [|a w IH]; intros t prev Hw Ht Hrest Hprev.
  - simpl. unfold Re.boundary. rewrite Hprev by done.
    destruct t as [|b t]; simpl.
    + destruct rest as [|c r]; [done|]. simpl in Hrest |- *.
      by rewrite (space_not_word _ Hrest).
    + simpl in Ht. apply andb_true_iff in Ht as [Hb _].
      by rewrite (token_char_word _ Hb).
  - simpl in Hw. apply andb_true_iff in Hw as [Ha Hw].
    simpl. rewrite decide_False by by apply token_char_not_dot.
    destruct t as [|b t]; simpl.
    + destruct rest as [|c r]; [done|]. simpl in Hrest |- *.
      rewrite bool_decide_eq_false_2; [done|].
      intros ->. rewrite (token_char_not_space _ Ha) in Hrest. done.
    + simpl in Ht. apply andb_true_iff in Ht as [Hb Ht].
      rewrite IH; [|done|done|done|by intros _; apply token_char_word].
      repeat case_bool_decide; simpl; congruence.
Qed.

Lemma literal_not_at_space (w : string) (prev : option ascii) (c : ascii) (s : string) :
  all_chars token_char w = true -> w ≠ "" -> Py.isspace c = true ->
  Re.match_here (Re.atoms w) prev (String c s) = false.
Proof.
  destruct w as [|a w]; [done|]. simpl. intros [Ha _]%andb_true_iff _ Hc.
  rewrite decide_False by by apply token_char_not_dot.
  simpl. rewrite bool_decide_eq_false_2; [done|].
  intros ->. rewrite (token_char_not_space _ Ha) in Hc. done.
Qed.

(** A literal noise word removes exactly the tokens equal to it. *)
Lemma sub_word_literal (w s : string) :
  all_chars token_char w = true -> w ≠ "" -> clean s = true ->
  Py.split (Re.sub_word w s) = filter (fun t => t ≠ w) (Py.split s)
  ∧ clean (Re.sub_word w s) = true.
Proof.
  intros Hw Hne Hclean. split; [|by apply sub_word_go_clean].
  unfold Re.sub_word.
  rewrite (sub_word_go_tokens (Re.atoms w) (fun t => bool_decide (t = w)))
    with (n := String.length s); [|by intros; apply literal_not_at_space|done|done| |done].
  - apply list_filter_iff. intros t. by rewrite bool_decide_eq_false.
  - intros t _ Ht _ prev rest Hrest. split.
    + by apply match_here_literal.
    + intros ->%bool_decide_eq_true. by rewrite atoms_length.
Qed.

(** The entry "st." removes the three-character words that start with
    "st" (once no word "st" is left). *)
Lemma sub_word_st_dot (s : string) :
  clean s = true -> "st" ∉ Py.split s ->
  Py.split (Re.sub_word "st." s) = filter (fun t => st_word t = false) (Py.split s)
  ∧ clean (Re.sub_word "st." s) = true.
Proof.
  intros Hclean Hst. split; [|by apply sub_word_go_clean].
  unfold Re.sub_word.
  apply (sub_word_go_tokens (Re.atoms "st.") st_word) with (n := String.length s);
    [|done|done| |done].
  - intros prev c s' Hc. simpl.
    rewrite bool_decide_eq_false_2; [done|]. intros <-. by vm_compute in Hc.
  - intros t Hin Ht Hne prev rest Hrest.
    assert (t ≠ "st") as Hne_st by by intros ->.
    destruct t as [|c1 [|c2 [|c3 [|c4 t]]]]; simpl in Ht |- *.
    + done.
    + split; [|done]. destruct rest as [|c r]; simpl; [by rewrite andb_false_r|].
      simpl in Hrest. rewrite (bool_decide_eq_false_2 ("t"%char = c)).
      * by rewrite andb_false_r.
      * intros <-. by vm_compute in Hrest.
    + split; [|done].
      do 2 case_bool_decide; simpl; try done. by subst.
    + split; [|done].
      apply andb_true_iff in Ht as (_ & (_ & (Hc3 & _)%andb_true_iff)%andb_true_iff).
      pose proof (token_char_not_newline _ Hc3) as Hdot. simpl in Hdot.
      rewrite Hdot. unfold Re.boundary. simpl.
      change ("" +:+ rest) with rest.
      assert (Re.word_at (Re.head rest) = false) as ->.
      { destruct rest as [|c r]; [done|]. simpl in Hrest |- *.
        by apply space_not_word. }
      by rewrite (token_char_word _ Hc3), andb_true_r.
    + split; [|done].
      apply andb_true_iff in Ht
        as (_ & (_ & (Hc3 & (Hc4 & _)%andb_true_iff)%andb_true_iff)%andb_true_iff).
      unfold Re.boundary. simpl.
      rewrite (token_char_word _ Hc3), (token_char_word _ Hc4). simpl.
      by rewrite !andb_false_r.
Qed.

(** *** Collapsing and trimming *)

Lemma app_empty_r (t : string) : t +:+ "" = t.
Proof. induction t as [|c t IH]; [done|]. by rewrite app_cons, IH. Qed.

Lemma rstrip_nonspace (c : ascii) (s : string) :
  Py.isspace c = false -> Py.rstrip (String c s) = String c (Py.rstrip s).
Proof. intros Hc. simpl. rewrite Hc. by destruct (Py.rstrip s). Qed.

Lemma rstrip_token (t x : string) :
  all_chars token_char t = true -> Py.rstrip (t +:+ x) = t +:+ Py.rstrip x.
Proof.
  induction t as [|c t IH]; [done|].
  intros Ht. simpl in Ht. apply andb_true_iff in Ht as [Hc Ht].
  rewrite !app_cons, rstrip_nonspace by by apply token_char_not_space.
  by rewrite IH.
Qed.

Lemma sub_spaces_go_token (t rest : string) :
  all_chars token_char t = true ->
  Re.sub_spaces_go false (t +:+ rest) = t +:+ Re.sub_spaces_go false rest.
Proof.
  induction t as [|c t IH]; [done|].
  intros Ht. simpl in Ht. apply andb_true_iff in Ht as [Hc Ht].
  rewrite !app_cons. simpl. by rewrite (token_char_not_space _ Hc), IH.
Qed.

Lemma rev_nonempty (c : ascii) (cur : string) : String.rev (String c cur) ≠ "".
Proof.
  unfold String.rev. simpl. destruct (rev_app_cons_inv cur c "") as (d & u & ->). done.
Qed.

Lemma split_go_nonempty (u cur : string) : Forall (fun t => t ≠ "") (Py.split_go cur u).
Proof.
  revert cur. induction u as [|c u IH]; intros cur; simpl.
  - destruct cur as [|d cur]; [by apply Forall_nil|].
    apply Forall_cons. split; [apply rev_nonempty|by apply Forall_nil].
  - destruct (Py.isspace c); [|apply IH].
    destruct cur as [|d cur]; [apply IH|].
    apply Forall_cons. split; [apply rev_nonempty|apply IH].
Qed.

Lemma join_nonempty (t : string) (ts : list string) :
  t ≠ "" -> Py.join " " (t :: ts) ≠ "".
Proof.
  intros Ht. destruct t as [|c t]; [done|]. by destruct ts.
Qed.

(** After a whitespace run: the rest of the collapsed string, trimmed on
    the right, is the tokens joined by single blanks. *)
Lemma rstrip_sub_spaces (n : nat) (u : string) :
  (String.length u <= n)%nat -> clean u = true ->
  Py.rstrip (Re.sub_spaces_go true u) = Py.join " " (Py.split u).
Proof.
  revert u. induction n as [|n IH]; intros u Hlen Hclean.
  { destruct u; [done|simpl in Hlen; lia]. }
  destruct u as [|c u]; [done|].
  destruct (Py.isspace c) eqn:Hsp.
  - rewrite (split_space _ _ Hsp). simpl. rewrite Hsp.
    unfold clean in Hclean; simpl in Hclean.
    apply andb_true_iff in Hclean as [_ Hclean].
    apply IH; [simpl in Hlen; lia|done].
  - pose proof (take_token_chars _ Hclean) as Htok.
    pose proof (drop_token_clean _ Hclean) as Hrest_clean.
    pose proof (drop_token_at_break (String c u)) as Hbreak.
    pose proof (take_drop_token (String c u)) as Hsplit.
    pose proof (drop_token_length u) as Hlen_rest.
    simpl in Htok, Hrest_clean, Hbreak, Hsplit. rewrite Hsp in *.
    set (tt := take_token u) in *. set (rest := drop_token u) in *.
    assert (Py.split (String c u) = String c tt :: Py.split rest) as ->.
    { rewrite <- Hsplit. by apply split_token. }
    assert (Re.sub_spaces_go true (String c u)
            = String c tt +:+ Re.sub_spaces_go false rest) as ->.
    { rewrite <- Hsplit at 1. rewrite app_cons. simpl. rewrite Hsp.
      simpl in Htok. apply andb_true_iff in Htok as [_ Htt].
      by rewrite sub_spaces_go_token, app_cons. }
    rewrite rstrip_token by done.
    destruct rest as [|w r]; [by rewrite app_empty_r|].
    simpl in Hbreak. rewrite (split_space _ _ Hbreak).
    assert (Py.rstrip (Re.sub_spaces_go true r) = Py.join " " (Py.split r)) as Hr.
    { apply IH; [simpl in Hlen, Hlen_rest; lia|].
      unfold clean in Hrest_clean; simpl in Hrest_clean.
      by apply andb_true_iff in Hrest_clean as [_ ?]. }
    cbn [Re.sub_spaces_go]. rewrite Hbreak. cbn [Py.rstrip]. rewrite Hr.
    pose proof (split_go_nonempty r "") as Hne. fold (Py.split r) in Hne.
    destruct (Py.split r) as [|t2 ts]; [by rewrite app_empty_r|].
    apply Forall_cons in Hne as [Ht2 _].
    pose proof (join_nonempty t2 ts Ht2) as Hjoin.
    change (Py.join " " (String c tt :: t2 :: ts))
      with (String c tt +:+ " " +:+ Py.join " " (t2 :: ts)).
    destruct (Py.join " " (t2 :: ts)) as [|d j]; [done|].
    change (Py.isspace " ") with true. done.
Qed.

Lemma strip_sub_spaces_run (u : string) :
  clean u = true ->
  Py.rstrip (Py.lstrip (Re.sub_spaces_go true u)) = Py.join " " (Py.split u).
Proof.
  induction u as [|c u IH]; [done|]. intros Hclean.
  destruct (Py.isspace c) eqn:Hsp.
  - rewrite (split_space _ _ Hsp). simpl. rewrite Hsp. apply IH.
    unfold clean in Hclean; simpl in Hclean.
    by apply andb_true_iff in Hclean as [_ ?].
  - rewrite <- (rstrip_sub_spaces (String.length (String c u))) by done.
    cbn [Re.sub_spaces_go]. rewrite Hsp. cbn [Py.lstrip]. by rewrite Hsp.
Qed.

(** [re.sub(r"\s+", " ", s).strip()] is [" ".join(s.split())]. *)
Lemma strip_sub_spaces (u : string) :
  clean u = true -> Py.strip (Re.sub_spaces u) = Py.join " " (Py.split u).
Proof.
  destruct u as [|c u]; [done|]. intros Hclean.
  unfold Py.strip, Re.sub_spaces.
  destruct (Py.isspace c) eqn:Hsp.
  - rewrite (split_space _ _ Hsp). simpl. rewrite Hsp. simpl.
    change (Py.isspace " ") with true. cbn iota.
    apply strip_sub_spaces_run.
    unfold clean in Hclean; simpl in Hclean.
    by apply andb_true_iff in Hclean as [_ ?].
  - rewrite <- (rstrip_sub_spaces (String.length (String c u))) by done.
    cbn [Re.sub_spaces_go]. rewrite Hsp. cbn [Py.lstrip]. by rewrite Hsp.
Qed.

Lemma sub_punctuation_clean (s : string) : clean (Re.sub_punctuation s) = true.
Proof.
  induction s as [|c s IH]; [done|]. unfold clean; simpl.
  fold (Re.sub_punctuation s). fold (clean (Re.sub_punctuation s)). rewrite IH, andb_true_r.
  unfold token_char.
  destruct (Py.is_lower c) eqn:Hl; simpl; [by rewrite Hl|].
  destruct (Py.is_digit c) eqn:Hd; simpl; [by rewrite Hd, orb_true_r|].
  destruct (Py.isspace c) eqn:Hsp; simpl; [by rewrite Hsp, !orb_true_r|done].
Qed.

(** *** The normalizer, exactly *)

(** What [normalize_team_name] computes: lowercase, "&" to "and",
    punctuation to blanks, then the tokens that are neither one of
    university, college, state, st, the, of nor a three-character word
    starting with "st", joined by single blanks. *)
Lemma normalize_team_name_exact (name : string) :
  normalize_team_name (Some name)
  = Py.join " "
      (filter (fun t => ¬ dropped t)
         (Py.split (Re.sub_punctuation (Py.replace_char "&" "and" (Py.lower name))))).
Proof.
  destruct name as [|c0 name0]; [done|].
  unfold normalize_team_name.
  set (s0 := Re.sub_punctuation _).
  pose proof (sub_punctuation_clean
                (Py.replace_char "&" "and" (Py.lower (String c0 name0)))) as H0.
  fold s0 in H0. unfold NOISE_WORDS. cbn [foldl].
  destruct (sub_word_literal "university" s0) as [E1 H1]; [done..|].
  destruct (sub_word_literal "college" _ eq_refl ltac:(done) H1) as [E2 H2].
  destruct (sub_word_literal "state" _ eq_refl ltac:(done) H2) as [E3 H3].
  destruct (sub_word_literal "st" _ eq_refl ltac:(done) H3) as [E4 H4].
  destruct (sub_word_st_dot _ H4) as [E5 H5].
  { rewrite E4. intros [? _]%list_elem_of_filter. done. }
  destruct (sub_word_literal "the" _ eq_refl ltac:(done) H5) as [E6 H6].
  destruct (sub_word_literal "of" _ eq_refl ltac:(done) H6) as [E7 H7].
  rewrite (strip_sub_spaces _ H7), E7, E6, E5, E4, E3, E2, E1.
  f_equal. rewrite !list_filter_filter. apply list_filter_iff. intros t.
  unfold dropped, SPEC_NOISE_TOKENS.
  rewrite !elem_of_cons, elem_of_nil. destruct (st_word t); intuition congruence.
Qed.

(** Apart from the three-character words that start with "st", the code
    and the specification agree. *)
Lemma normalize_team_name_agrees (name : string) :
  (∀ t, t ∈ Py.split (Re.sub_punctuation (Py.replace_char "&" "and" (Py.lower name))) ->
        st_word t = false) ->
  normalize_team_name (Some name) = normalize_spec name.
Proof.
  intros Hst. rewrite normalize_team_name_exact. unfold normalize_spec. f_equal.
  induction (Py.split _) as [|t ts IH]; [done|].
  assert (st_word t = false) as Ht by (apply Hst; by left).
  assert (¬ dropped t <-> t ∉ SPEC_NOISE_TOKENS) as Hiff.
  { unfold dropped. rewrite Ht. intuition congruence. }
  rewrite !filter_cons. rewrite IH by (intros; apply Hst; by right).
  destruct (decide (¬ dropped t)) as [Hd|Hd], (decide (t ∉ SPEC_NOISE_TOKENS)) as [Hn|Hn];
    tauto.
Qed.

(** C5, checked on the code. [normalize_team_name] lowercases, turns "&"
    into "and" and punctuation into blanks, removes whole words, collapses
    whitespace and trims, but the words it removes are not only
    university, college, state, st, the, of: the noise list holds the
    entry "st." and the pattern built from it keeps the full stop as a
    wildcard, so every three-character word that starts with "st" goes as
    well. "STL Billikens" normalizes to "billikens", where the
    specification gives "stl billikens"; on names without such a word the
    two agree, and "Ohio State University" gives "ohio", which has neither
    "university" nor "state" as a token. *)
Theorem normalize_team_name_drops_st_words :
  (∀ name,
     normalize_team_name (Some name)
     = Py.join " "
         (filter (fun t => ¬ dropped t)
            (Py.split (Re.sub_punctuation (Py.replace_char "&" "and" (Py.lower name))))))
  ∧ (∀ name,
       (∀ t, t ∈ Py.split (Re.sub_punctuation
                             (Py.replace_char "&" "and" (Py.lower name))) ->
             st_word t = false) ->
       normalize_team_name (Some name) = normalize_spec name)
  ∧ normalize_team_name (Some "STL Billikens") = "billikens"
  ∧ normalize_spec "STL Billikens" = "stl billikens"
  ∧ Re.sub_word "st." "stl billikens" = "  billikens"
  ∧ normalize_team_name (Some "Ohio State University") = "ohio"
  ∧ Py.split (normalize_team_name (Some "Ohio State University")) = ["ohio"].
Proof.
  split; [exact normalize_team_name_exact|].
  split; [exact normalize_team_name_agrees|].
  vm_compute. repeat split.
Qed.


(** * Further properties *)

(** ** Characters and case *)



Lemma upper_empty (s : string) : Py.upper s = "" <-> s = "".
Proof. by destruct s. Qed.

(** ** Half statistics aggregator *)

Lemma count_plays_from (plays : list play) (t : tally) :
  t_fga (foldl count_play t plays) = t_fga t + t_fga (count_plays plays)
  ∧ t_fta (foldl count_play t plays) = t_fta t + t_fta (count_plays plays)
  ∧ t_turnovers (foldl count_play t plays) = t_turnovers t + t_turnovers (count_plays plays).
Proof.
  unfold count_plays. revert t.
  induction plays as [|p plays IH] using rev_ind; intros t; [simpl; lia|].
  rewrite !foldl_app. simpl. destruct (IH t) as (-> & -> & ->). lia.
Qed.

Lemma increments_bounded (d : string) :
  0 ≤ field_goal_increment d ≤ 1
  ∧ 0 ≤ free_throw_increment d ≤ 3
  ∧ 0 ≤ turnover_increment d ≤ 1.
Proof.
  unfold field_goal_increment, free_throw_increment, turnover_increment.
  repeat match goal with |- context [if ?b then _ else _] => destruct b end; lia.
Qed.

(** X1. No statistics are available exactly when no listed period is
    numbered 1 (in particular when the list of periods is missing or
    empty). *)
Theorem first_half_stats_unavailable (pbp : pbp_data) :
  compute_first_half_stats_from_pbp pbp = None
  <-> Forall (fun p => is_period_one p = false) (default [] (periods pbp)).
Proof.
  unfold compute_first_half_stats_from_pbp.
  destruct (default [] (periods pbp)) as [|p0 ps]; [by split; [constructor|]|].
  generalize (p0 :: ps); intros l.
  induction l as [|p l IH]; simpl; [by split; [constructor|]|].
  destruct (is_period_one p) eqn:Hp.
  - split; [done|]. intros [Hp' _]%Forall_cons. congruence.
  - rewrite IH. split; [by constructor|by intros [_ ?]%Forall_cons].
Qed.

(** X2. Only the first period numbered 1 counts: the periods listed
    before it and whatever is listed after it do not change the result. *)
Theorem first_period_one_decides (before after : list period) (p : period) :
  Forall (fun q => is_period_one q = false) before ->
  is_period_one p = true ->
  compute_first_half_stats_from_pbp {| periods := Some (before ++ p :: after) |}
  = Some (stats_of_tally (count_plays (default [] (playbyplayStats p)))).
Proof.
  intros Hbefore Hp. unfold compute_first_half_stats_from_pbp.
  cbn [periods default from_option id].
  assert (List.find is_period_one (before ++ p :: after) = Some p) as Hfind.
  { induction Hbefore as [|q before Hq _ IH]; simpl; [by rewrite Hp|by rewrite Hq]. }
  destruct (before ++ p :: after) as [|p0 l0] eqn:Happ; [by destruct before|].
  by rewrite Hfind.
Qed.

Lemma first_period_one_decides_witness :
  compute_first_half_stats_from_pbp
    {| periods := Some ([ {| periodNumber := Some (JInt 2); playbyplayStats := None |} ]
                        ++ sample_period
                        :: [ {| periodNumber := Some (JInt 1);
                                playbyplayStats := Some [text_play "Dunk"] |} ]) |}
  = Some (stats_of_tally (count_plays (default [] (playbyplayStats sample_period)))).
Proof.
  apply first_period_one_decides; [|reflexivity].
  apply Forall_cons. split; [reflexivity|by apply Forall_nil].
Defined.

(** X3. The counters never go below zero and grow by at most one field
    goal attempt, three free-throw attempts and one turnover per play; the
    pace integer is never negative. *)
Theorem counts_bounded (plays : list play) :
  0 ≤ t_fga (count_plays plays) ≤ Z.of_nat (length plays)
  ∧ 0 ≤ t_fta (count_plays plays) ≤ 3 * Z.of_nat (length plays)
  ∧ 0 ≤ t_turnovers (count_plays plays) ≤ Z.of_nat (length plays)
  ∧ (0 <= integer (stats_of_tally (count_plays plays)))%Q.
Proof.
  assert (0 ≤ t_fga (count_plays plays) ≤ Z.of_nat (length plays)
          ∧ 0 ≤ t_fta (count_plays plays) ≤ 3 * Z.of_nat (length plays)
          ∧ 0 ≤ t_turnovers (count_plays plays) ≤ Z.of_nat (length plays))
    as (Hfga & Hfta & Hto).
  { induction plays as [|p plays IH] using rev_ind; [simpl; lia|].
    rewrite count_plays_snoc, length_app. unfold count_play at 1 2 3 4 5 6.
    cbn [t_fga t_fta t_turnovers length].
    pose proof (increments_bounded (Py.lower (description p))). lia. }
  repeat split; try lia.
  cbn [stats_of_tally integer].
  apply Qle_trans with (inject_Z (t_fga (count_plays plays)) + 0 + 0)%Q.
  - rewrite !Qplus_0_r. change 0%Q with (inject_Z 0). rewrite <- Zle_Qle. lia.
  - apply Qplus_le_compat; [apply Qplus_le_compat; [apply Qle_refl|]|].
    + apply Qle_shift_div_l; [reflexivity|]. rewrite Qmult_0_l.
      change 0%Q with (inject_Z 0). rewrite <- Zle_Qle. lia.
    + change 0%Q with (inject_Z 0). rewrite <- Zle_Qle. lia.
Qed.

(** X4. The three counters of two runs of plays add up: counting a
    sequence of plays gives the sum of the counts of its two parts. *)
Theorem counts_additive (first_plays later_plays : list play) :
  t_fga (count_plays (first_plays ++ later_plays))
    = t_fga (count_plays first_plays) + t_fga (count_plays later_plays)
  ∧ t_fta (count_plays (first_plays ++ later_plays))
    = t_fta (count_plays first_plays) + t_fta (count_plays later_plays)
  ∧ t_turnovers (count_plays (first_plays ++ later_plays))
    = t_turnovers (count_plays first_plays) + t_turnovers (count_plays later_plays).
Proof.
  unfold count_plays at 1 4 7. rewrite foldl_app.
  apply (count_plays_from later_plays).
Qed.

(** X5. The three counters do not depend on the order of the plays (the
    running scores do). *)
Theorem counts_order_independent (plays plays' : list play) :
  plays ≡ₚ plays' ->
  t_fga (count_plays plays) = t_fga (count_plays plays')
  ∧ t_fta (count_plays plays) = t_fta (count_plays plays')
  ∧ t_turnovers (count_plays plays) = t_turnovers (count_plays plays').
Proof.
  assert (∀ p l, t_fga (count_plays (p :: l))
                   = field_goal_increment (Py.lower (description p)) + t_fga (count_plays l)
                 ∧ t_fta (count_plays (p :: l))
                   = free_throw_increment (Py.lower (description p)) + t_fta (count_plays l)
                 ∧ t_turnovers (count_plays (p :: l))
                   = turnover_increment (Py.lower (description p))
                     + t_turnovers (count_plays l)) as Hcons.
  { intros p l. unfold count_plays at 1 3 5. simpl.
    destruct (count_plays_from l (count_play tally0 p)) as (-> & -> & ->).
    unfold count_play. cbn [t_fga t_fta t_turnovers tally0]. lia. }
  induction 1 as [|p l l' _ IH|p q l|l1 l2 l3 _ IH1 _ IH2].
  - done.
  - destruct (Hcons p l) as (-> & -> & ->), (Hcons p l') as (-> & -> & ->). lia.
  - destruct (Hcons q (p :: l)) as (-> & -> & ->), (Hcons p (q :: l)) as (-> & -> & ->).
    destruct (Hcons p l) as (-> & -> & ->), (Hcons q l) as (-> & -> & ->). lia.
  - lia.
Qed.

Lemma counts_order_independent_witness :
  t_fga (count_plays [text_play "Smith made Layup"; text_play "Turnover by Jones"])
    = t_fga (count_plays [text_play "Turnover by Jones"; text_play "Smith made Layup"])
  ∧ t_fta (count_plays [text_play "Smith made Layup"; text_play "Turnover by Jones"])
    = t_fta (count_plays [text_play "Turnover by Jones"; text_play "Smith made Layup"])
  ∧ t_turnovers (count_plays [text_play "Smith made Layup"; text_play "Turnover by Jones"])
    = t_turnovers (count_plays [text_play "Turnover by Jones"; text_play "Smith made Layup"]).
Proof. apply counts_order_independent. apply perm_swap. Defined.


(** X7. A play that carries no text (no event description, no visitor
    text, no home text) changes none of the three counters, whatever its
    scores. *)
Theorem silent_play_counts_nothing (t : tally) (p : play) :
  description p = "" ->
  t_fga (count_play t p) = t_fga t
  ∧ t_fta (count_play t p) = t_fta t
  ∧ t_turnovers (count_play t p) = t_turnovers t.
Proof.
  intros Hd. unfold count_play. rewrite Hd. cbn. lia.
Qed.

Lemma silent_play_counts_nothing_witness :
  t_fga (count_play (count_plays [text_play "Dunk"])
           {| eventDescription := None; visitorText := Some ""; homeText := None;
              homeScore := Some 2; visitorScore := None |})
    = t_fga (count_plays [text_play "Dunk"])
  ∧ t_fta (count_play (count_plays [text_play "Dunk"])
             {| eventDescription := None; visitorText := Some ""; homeText := None;
                homeScore := Some 2; visitorScore := None |})
    = t_fta (count_plays [text_play "Dunk"])
  ∧ t_turnovers (count_play (count_plays [text_play "Dunk"])
                   {| eventDescription := None; visitorText := Some ""; homeText := None;
                      homeScore := Some 2; visitorScore := None |})
    = t_turnovers (count_plays [text_play "Dunk"]).
Proof. apply silent_play_counts_nothing. reflexivity. Defined.

(** ** Team-name normalizer *)

(** A token as the normalizer produces them: not empty, made of lowercase
    letters and digits. *)
Lemma clean_char_fixed (c : ascii) :
  token_char c || Py.isspace c = true ->
  Py.lower_char c = c
  ∧ c ≠ "&"%char
  ∧ (if Py.is_lower c || Py.is_digit c || Py.isspace c then c else " "%char) = c.
Proof.
  intros H. split; [|split].
  - destruct c as [[] [] [] [] [] [] [] []]; vm_compute in H; try discriminate; done.
  - intros ->. vm_compute in H. discriminate.
  - change (Py.is_lower c || Py.is_digit c) with (token_char c). by rewrite H.
Qed.

(** The first three steps leave a clean string as it is. *)
Lemma clean_fixed (s : string) :
  clean s = true ->
  Re.sub_punctuation (Py.replace_char "&" "and" (Py.lower s)) = s.
Proof.
  induction s as [|c s IH]; [done|]. unfold clean; simpl.
  intros [Hc Hs]%andb_true_iff.
  destruct (clean_char_fixed c Hc) as (Hlow & Hamp & Hkeep).
  rewrite Hlow. rewrite decide_False by done.
  unfold Re.sub_punctuation in *. cbn [Py.map_chars].
  rewrite Hkeep. f_equal. by apply IH.
Qed.

Lemma split_clean_tokens (n : nat) (s : string) :
  (String.length s <= n)%nat -> clean s = true ->
  Forall (fun t => all_chars token_char t = true ∧ t ≠ "") (Py.split s).
Proof.
  revert s. induction n as [|n IH]; intros s Hlen Hclean.
  { destruct s; [by apply Forall_nil|simpl in Hlen; lia]. }
  destruct s as [|c s]; [by apply Forall_nil|].
  destruct (Py.isspace c) eqn:Hsp.
  - rewrite (split_space _ _ Hsp). apply IH; [simpl in Hlen; lia|].
    unfold clean in Hclean; simpl in Hclean.
    by apply andb_true_iff in Hclean as [_ ?].
  - pose proof (take_token_chars _ Hclean) as Htok.
    pose proof (drop_token_clean _ Hclean) as Hrest_clean.
    pose proof (drop_token_at_break (String c s)) as Hbreak.
    pose proof (take_drop_token (String c s)) as Hsplit.
    pose proof (drop_token_length s) as Hlen_rest.
    simpl in Htok, Hrest_clean, Hbreak, Hsplit. rewrite Hsp in *.
    rewrite <- Hsplit, split_token by done.
    apply Forall_cons. split; [done|].
    apply IH; [simpl in Hlen; lia|done].
Qed.

Lemma split_join (ts : list string) :
  Forall (fun t => all_chars token_char t = true ∧ t ≠ "") ts ->
  Py.split (Py.join " " ts) = ts.
Proof.
  induction 1 as [|t ts [Ht Hne] _ IH]; [done|].
  destruct t as [|c t]; [done|].
  destruct ts as [|t2 ts].
  - cbn [Py.join]. rewrite <- (app_empty_r (String c t)) at 1.
    rewrite split_token by done. done.
  - change (Py.join " " (String c t :: t2 :: ts))
      with (String c t +:+ String " " (Py.join " " (t2 :: ts))).
    rewrite split_token by done. by rewrite split_space, IH.
Qed.

Lemma all_chars_app (P : ascii -> bool) (s r : string) :
  all_chars P (s +:+ r) = all_chars P s && all_chars P r.
Proof.
  induction s as [|c s IH]; [done|]. rewrite app_cons. simpl.
  by rewrite IH, andb_assoc.
Qed.

Lemma all_chars_weaken (P Q : ascii -> bool) (s : string) :
  (∀ c, P c = true -> Q c = true) -> all_chars P s = true -> all_chars Q s = true.
Proof.
  intros HPQ. induction s as [|c s IH]; [done|]. simpl.
  intros [Hc Hs]%andb_true_iff. by rewrite (HPQ _ Hc), IH.
Qed.

(** Tokens joined by single blanks: only lowercase letters, digits and
    the blank occur. *)
Lemma join_blank_chars (ts : list string) :
  Forall (fun t => all_chars token_char t = true ∧ t ≠ "") ts ->
  all_chars (fun c => token_char c || bool_decide (c = " "%char)) (Py.join " " ts) = true.
Proof.
  induction 1 as [|t ts [Ht Hne] _ IH]; [done|].
  assert (all_chars (fun c => token_char c || bool_decide (c = " "%char)) t = true) as Ht'.
  { apply (all_chars_weaken token_char); [|done]. by intros c ->. }
  destruct ts as [|t2 ts]; [done|].
  change (Py.join " " (t :: t2 :: ts)) with (t +:+ String " " (Py.join " " (t2 :: ts))).
  rewrite all_chars_app, Ht'. cbn [all_chars]. by rewrite IH.
Qed.

Lemma join_clean (ts : list string) :
  Forall (fun t => all_chars token_char t = true ∧ t ≠ "") ts ->
  clean (Py.join " " ts) = true.
Proof.
  intros Hts. unfold clean.
  apply (all_chars_weaken (fun c => token_char c || bool_decide (c = " "%char)));
    [|by apply join_blank_chars].
  intros c H. apply orb_true_iff in H as [->|H]; [done|].
  apply bool_decide_eq_true in H as ->. done.
Qed.

(** The tokens the normalizer keeps. *)
Lemma kept_tokens (name : string) :
  Forall (fun t => all_chars token_char t = true ∧ t ≠ "")
    (filter (fun t => ¬ dropped t)
       (Py.split (Re.sub_punctuation (Py.replace_char "&" "and" (Py.lower name))))).
Proof.
  apply Forall_forall. intros t [_ Hin]%list_elem_of_filter.
  pose proof (split_clean_tokens _ _ (le_n _) (sub_punctuation_clean
    (Py.replace_char "&" "and" (Py.lower name)))) as Hall.
  by apply (proj1 (Forall_forall _ _) Hall).
Qed.

Lemma normalize_none : normalize_team_name None = normalize_team_name (Some "").
Proof. reflexivity. Qed.

(** X8. The normalized name is made of lowercase letters, digits and
    blanks only; read as blank-separated words it is exactly those words
    joined by single blanks (no leading, trailing or doubled blank); and
    none of its words is a noise word (university, college, state, st,
    the, of) or a three-character word starting with "st". *)
Theorem normalize_team_name_shape (name : option string) :
  all_chars (fun c => token_char c || bool_decide (c = " "%char))
    (normalize_team_name name) = true
  ∧ Py.join " " (Py.split (normalize_team_name name)) = normalize_team_name name
  ∧ Forall (fun t => ¬ dropped t) (Py.split (normalize_team_name name)).
Proof.
  destruct name as [name|]; [|by repeat split; try apply Forall_nil].
  rewrite normalize_team_name_exact.
  pose proof (kept_tokens name) as Hkept.
  split; [by apply join_blank_chars|].
  rewrite split_join by done. split; [done|].
  apply Forall_forall. by intros t [? _]%list_elem_of_filter.
Qed.

(** X9. Normalizing is idempotent: a normalized name normalizes to
    itself. *)
Theorem normalize_team_name_idempotent (name : option string) :
  normalize_team_name (Some (normalize_team_name name)) = normalize_team_name name.
Proof.
  destruct name as [name|]; [|done].
  rewrite (normalize_team_name_exact (normalize_team_name (Some name))).
  rewrite (normalize_team_name_exact name).
  pose proof (kept_tokens name) as Hkept.
  rewrite clean_fixed by by apply join_clean.
  rewrite split_join by done.
  by rewrite list_filter_filter_l.
Qed.


(** ** Team-name matcher *)

Lemma startswith_refl (s : string) : Py.startswith s s = true.
Proof. induction s as [|c s IH]; [done|]. simpl. by rewrite decide_True. Qed.

Lemma contains_refl (s : string) : Py.contains s s = true.
Proof. destruct s; simpl; [done|]. rewrite decide_True by done. by rewrite startswith_refl. Qed.

Lemma falsy_empty (s : string) : Py.falsy s = true <-> s = "".
Proof. by destruct s. Qed.

(** X11. A name whose normal form is empty (a missing name, an empty one,
    one made of noise words and punctuation only) matches nothing, on
    either side. *)
Theorem empty_normal_form_never_matches (a b : option string) :
  normalize_team_name a = "" ->
  teams_match_name a b = false ∧ teams_match_name b a = false.
Proof.
  intros Ha. unfold teams_match_name. rewrite Ha. simpl.
  by rewrite orb_true_r.
Qed.

Lemma empty_normal_form_never_matches_witness :
  teams_match_name (Some "The University of ...") (Some "The University")  = false
  ∧ teams_match_name (Some "The University") (Some "The University of ...") = false.
Proof. apply empty_normal_form_never_matches. reflexivity. Defined.

(** X12. A name whose normal form is not empty matches itself. *)
Theorem teams_match_name_refl (a : option string) :
  normalize_team_name a ≠ "" -> teams_match_name a a = true.
Proof.
  intros Ha. unfold teams_match_name.
  destruct (Py.falsy (normalize_team_name a)) eqn:Hf.
  - by apply falsy_empty in Hf.
  - simpl. by rewrite contains_refl.
Qed.

Lemma teams_match_name_refl_witness :
  teams_match_name (Some "Ohio State University") (Some "Ohio State University") = true.
Proof. apply teams_match_name_refl. vm_compute. discriminate. Defined.

(** X13. Matching sees the two names only through their normal forms:
    replacing each name by its normalized form does not change the
    answer. *)
Theorem teams_match_name_normalized (a b : option string) :
  teams_match_name (Some (normalize_team_name a)) (Some (normalize_team_name b))
  = teams_match_name a b.
Proof.
  unfold teams_match_name.
  by rewrite (normalize_team_name_idempotent a), (normalize_team_name_idempotent b).
Qed.


(** X15. Two names that share two different words after normalization
    match, whether or not one contains the other. *)
Theorem two_common_tokens_match (a b : option string) (t1 t2 : string) :
  t1 ≠ t2 ->
  t1 ∈ Py.split (normalize_team_name a) -> t2 ∈ Py.split (normalize_team_name a) ->
  t1 ∈ Py.split (normalize_team_name b) -> t2 ∈ Py.split (normalize_team_name b) ->
  teams_match_name a b = true.
Proof.
  intros Hne Ha1 Ha2 Hb1 Hb2. unfold teams_match_name.
  destruct (Py.falsy (normalize_team_name a)) eqn:Hfa.
  { apply falsy_empty in Hfa. rewrite Hfa in Ha1. by apply elem_of_nil in Ha1. }
  destruct (Py.falsy (normalize_team_name b)) eqn:Hfb.
  { apply falsy_empty in Hfb. rewrite Hfb in Hb1. by apply elem_of_nil in Hb1. }
  simpl. destruct (_ || _); [done|].
  apply bool_decide_eq_true.
  assert (({[t1]} ∪ {[t2]} : gset string)
            ⊆ token_set (normalize_team_name a) ∩ token_set (normalize_team_name b))
    as Hsub.
  { unfold token_set. intros t Ht. apply elem_of_intersection.
    rewrite !elem_of_list_to_set.
    apply elem_of_union in Ht as [->%elem_of_singleton| ->%elem_of_singleton]; done. }
  apply subseteq_size in Hsub.
  rewrite size_union in Hsub by set_solver.
  rewrite !size_singleton in Hsub. lia.
Qed.

Lemma two_common_tokens_match_witness :
  teams_match_name (Some "North Carolina Tar Heels") (Some "Carolina (North) Wolves") = true.
Proof.
  apply (two_common_tokens_match _ _ "north" "carolina"); [discriminate|..];
    apply (bool_decide_unpack _); vm_compute; exact I.
Defined.

(** ** Game pairing engine *)

(** X16. Handing over the home and the away name variants the other way
    round finds the same market event: both alignments are tried for
    every event before the next one is looked at. *)
Theorem find_matching_odds_event_swap (odds_games : list odds_event)
    (home_names away_names : list (option string)) :
  find_matching_odds_event odds_games away_names home_names
  = find_matching_odds_event odds_games home_names away_names.
Proof.
  induction odds_games as [|event rest IH]; [done|].
  cbn [find_matching_odds_event]. rewrite IH.
  destruct (any_name_matches home_names (Some (default "" (home_team event)))),
    (any_name_matches away_names (Some (default "" (away_team event)))),
    (any_name_matches home_names (Some (default "" (away_team event)))),
    (any_name_matches away_names (Some (default "" (home_team event)))); done.
Qed.

(** X17. Searching a list of events that is the concatenation of two
    lists: a match in the first list is returned, and only when the first
    list has none is the second list searched. *)
Theorem find_matching_odds_event_app (first_games later_games : list odds_event)
    (home_names away_names : list (option string)) :
  find_matching_odds_event (first_games ++ later_games) home_names away_names
  = match find_matching_odds_event first_games home_names away_names with
    | Some event => Some event
    | None => find_matching_odds_event later_games home_names away_names
    end.
Proof.
  induction first_games as [|event rest IH]; [done|].
  rewrite <- app_comm_cons. cbn [find_matching_odds_event]. rewrite IH.
  by repeat destruct (_ && _).
Qed.

(** X18. A game with no usable variant of its home name (every variant
    missing or empty) is paired with no event, and likewise for the away
    name. *)
Theorem find_matching_needs_names (odds_games : list odds_event)
    (home_names away_names : list (option string)) :
  Forall (fun n => Py.truthy n = false) home_names
  ∨ Forall (fun n => Py.truthy n = false) away_names ->
  find_matching_odds_event odds_games home_names away_names = None.
Proof.
  assert (∀ names o, Forall (fun n => Py.truthy n = false) names ->
                     any_name_matches names o = false) as Hnone.
  { intros names o Hall. unfold any_name_matches.
    induction Hall as [|n names Hn _ IH]; [done|].
    rewrite filter_cons_False; [done|]. rewrite Hn. exact id. }
  intros Hnames. induction odds_games as [|event rest IH]; [done|].
  cbn [find_matching_odds_event]. rewrite IH.
  destruct Hnames as [H|H];
    rewrite (Hnone _ (Some (default "" (home_team event))) H),
      (Hnone _ (Some (default "" (away_team event))) H);
    by rewrite ?andb_false_r.
Qed.

Lemma find_matching_needs_names_witness :
  find_matching_odds_event
    [event_of []] [None; Some ""] [Some "North Carolina"] = None.
Proof.
  apply find_matching_needs_names. left.
  apply Forall_cons. split; [reflexivity|].
  apply Forall_cons. split; [reflexivity|by apply Forall_nil].
Defined.

(** ** Market total extractor *)

Lemma bm_by_key_app (bms later : list bookmaker) :
  bm_by_key (bms ++ later)
  = foldl (fun m bm => <[bm_key bm := bm]> m) (bm_by_key bms) later.
Proof. unfold bm_by_key. by rewrite foldl_app. Qed.

(** A quote is shadowed by a later quote that has its key. *)
Lemma index_shadowed (later : list bookmaker) (m : gmap (option string) bookmaker)
    (bm0 : bookmaker) :
  (∃ bm, bm ∈ later ∧ bm_key bm = bm_key bm0) ->
  foldl (fun m bm => <[bm_key bm := bm]> m) (<[bm_key bm0 := bm0]> m) later
  = foldl (fun m bm => <[bm_key bm := bm]> m) m later.
Proof.
  revert m. induction later as [|b later IH]; intros m (bm & Hin & Hkey).
  { by apply elem_of_nil in Hin. }
  simpl. destruct (decide (bm_key b = bm_key bm0)) as [Hb|Hb].
  - by rewrite Hb, insert_insert_eq.
  - rewrite insert_insert_ne by done. apply IH.
    apply elem_of_cons in Hin as [->|Hin]; [done|]. by exists bm.
Qed.

(** Indexing keeps two indexes equal away from a key they may differ on. *)
Lemma index_agree (later : list bookmaker) (m m' : gmap (option string) bookmaker)
    (k0 : option string) :
  (∀ k, k ≠ k0 -> m !! k = m' !! k) ->
  ∀ k, k ≠ k0 ->
    foldl (fun m bm => <[bm_key bm := bm]> m) m later !! k
    = foldl (fun m bm => <[bm_key bm := bm]> m) m' later !! k.
Proof.
  revert m m'. induction later as [|b later IH]; intros m m' Hagree; [done|].
  simpl. apply IH. intros k Hk.
  rewrite !lookup_insert. case_decide; [done|by apply Hagree].
Qed.

Lemma scan_priority_ext (m m' : gmap (option string) bookmaker) (keys : list string) :
  (∀ key, key ∈ keys -> m !! Some key = m' !! Some key) ->
  scan_priority m keys = scan_priority m' keys.
Proof.
  induction keys as [|key keys IH]; intros Hagree; [done|].
  cbn [scan_priority]. rewrite <- (Hagree key) by by left.
  rewrite IH; [done|]. intros key' Hin. apply Hagree. by right.
Qed.

Lemma scan_priority_shape (m : gmap (option string) bookmaker) (keys : list string) :
  Forall (fun key => key ≠ "") keys ->
  (∃ p label, scan_priority m keys = (Some p, Some label) ∧ label ≠ "")
  ∨ scan_priority m keys = (None, None).
Proof.
  induction 1 as [|key keys Hkey _ IH]; [by right|].
  cbn [scan_priority].
  destruct (m !! Some key) as [bm|]; [|done].
  destruct (scan_markets _) as [p|]; [|done].
  left. exists p, (Py.or_else (bm_title bm) key). split; [done|].
  destruct (bm_title bm) as [[|c s]|]; simpl; done.
Qed.

(** X19. The total and its bookmaker label come together: the result is
    either a total with a non-empty label, or no total and no label. *)
Theorem extract_total_and_label_together (event : odds_event) :
  (∃ p label, extract_full_game_total_with_book event = (Some p, Some label)
              ∧ label ≠ "")
  ∨ extract_full_game_total_with_book event = (None, None).
Proof.
  apply scan_priority_shape.
  unfold BOOKMAKER_PRIORITY. repeat (apply Forall_cons; split; [done|]).
  by apply Forall_nil.
Qed.

(** X20. A bookmaker whose key is not on the priority list is ignored:
    taking its quote out of the event does not change the result. *)
Theorem extract_ignores_unlisted_bookmaker (home away : option string)
    (before after : list bookmaker) (bm : bookmaker) :
  (∀ key, key ∈ BOOKMAKER_PRIORITY -> bm_key bm ≠ Some key) ->
  extract_full_game_total_with_book
    {| home_team := home; away_team := away; bookmakers := Some (before ++ bm :: after) |}
  = extract_full_game_total_with_book
      {| home_team := home; away_team := away; bookmakers := Some (before ++ after) |}.
Proof.
  intros Hunlisted. unfold extract_full_game_total_with_book.
  cbn [bookmakers default from_option id].
  apply scan_priority_ext. intros key Hkey.
  rewrite !bm_by_key_app. cbn [foldl].
  apply (index_agree after _ _ (bm_key bm)).
  - intros k Hk. by rewrite lookup_insert_ne.
  - intros Heq. by apply (Hunlisted key).
Qed.

Lemma extract_ignores_unlisted_bookmaker_witness :
  extract_full_game_total_with_book
    {| home_team := None; away_team := None;
       bookmakers := Some ([quote "fanduel" "FanDuel" 144.5]
                           ++ quote "pinnacle" "Pinnacle" 150
                           :: [quote "betmgm" "BetMGM" 143]) |}
  = extract_full_game_total_with_book
      {| home_team := None; away_team := None;
         bookmakers := Some ([quote "fanduel" "FanDuel" 144.5]
                             ++ [quote "betmgm" "BetMGM" 143]) |}.
Proof.
  apply extract_ignores_unlisted_bookmaker.
  intros key Hkey Heq. injection Heq as <-.
  revert Hkey. apply (bool_decide_unpack _). vm_compute. exact I.
Defined.

(** X21. Of two quotes with the same bookmaker key the one listed later
    is the one used: taking the earlier one out of the event does not
    change the result. *)
Theorem extract_later_duplicate_wins (home away : option string)
    (before after : list bookmaker) (bm : bookmaker) :
  (∃ bm', bm' ∈ after ∧ bm_key bm' = bm_key bm) ->
  extract_full_game_total_with_book
    {| home_team := home; away_team := away; bookmakers := Some (before ++ bm :: after) |}
  = extract_full_game_total_with_book
      {| home_team := home; away_team := away; bookmakers := Some (before ++ after) |}.
Proof.
  intros Hlater. unfold extract_full_game_total_with_book.
  cbn [bookmakers default from_option id].
  rewrite !bm_by_key_app. cbn [foldl]. by rewrite index_shadowed.
Qed.

Lemma extract_later_duplicate_wins_witness :
  extract_full_game_total_with_book
    {| home_team := None; away_team := None;
       bookmakers := Some ([] ++ quote "draftkings" "DraftKings" 145
                           :: [quote "fanduel" "FanDuel" 144.5;
                               quote "draftkings" "DraftKings" 146]) |}
  = extract_full_game_total_with_book
      {| home_team := None; away_team := None;
         bookmakers := Some ([] ++ [quote "fanduel" "FanDuel" 144.5;
                                    quote "draftkings" "DraftKings" 146]) |}.
Proof.
  apply extract_later_duplicate_wins.
  exists (quote "draftkings" "DraftKings" 146). split; [|reflexivity].
  apply elem_of_cons. right. apply elem_of_cons. by left.
Defined.

(** ** Betting evaluator *)

(** X22. A bet that qualifies always has a direction: its lean is OVER or
    UNDER, never NEUTRAL. *)
Theorem qualifying_bet_has_direction (integer_value home_pts away_pts line : Q) :
  qualifies (evaluate_bet integer_value home_pts away_pts line) = true ->
  lean (evaluate_bet integer_value home_pts away_pts line) = "OVER"
  ∨ lean (evaluate_bet integer_value home_pts away_pts line) = "UNDER".
Proof.
  unfold evaluate_bet, Qgtb; cbn [qualifies lean].
  intros [Hdiff _]%andb_true_iff. apply Qgeb_true in Hdiff.
  destruct (Qltb line integer_value) eqn:Hover; [by left|].
  destruct (Qltb integer_value line) eqn:Hunder; [by right|].
  apply Qltb_false in Hover, Hunder.
  assert (Qabs (integer_value - line) <= 0)%Q as Habs.
  { apply Qabs_Qle_condition. split; lra. }
  lra.
Qed.

Lemma qualifying_bet_has_direction_witness :
  lean (evaluate_bet 45 30 34 52) = "OVER" ∨ lean (evaluate_bet 45 30 34 52) = "UNDER".
Proof. apply qualifying_bet_has_direction. reflexivity. Defined.

(** X23. The evaluation does not depend on which of the two first-half
    scores is the home score. *)
Theorem evaluate_bet_home_away_symmetric (integer_value home_pts away_pts line : Q) :
  evaluate_bet integer_value away_pts home_pts line
  = evaluate_bet integer_value home_pts away_pts line.
Proof. unfold evaluate_bet. by rewrite (Qabs_Qminus away_pts home_pts). Qed.

(** ** Play-by-play requests *)

Lemma play_by_play_raise_cases (w : world) (path : option string) (e : exn) :
  get_game_play_by_play w path = Raise e
  <-> ∃ p status msg,
        path = Some p ∧ p ≠ ""
        ∧ http_get w (play_by_play_url p) = Reply status (NotJson msg)
        ∧ ¬ (400 ≤ status < 600)
        ∧ e = JSONDecodeError msg.
Proof.
  unfold get_game_play_by_play, play_by_play_url.
  destruct path as [[|c p]|]; cbn [Py.truthy negb default from_option id].
  - split; [done|]. by intros (? & ? & ? & [= <-] & ? & _).
  - destruct (http_get w _) as [msg|status body] eqn:Hget.
    { split; [done|]. intros (? & ? & ? & [= <-] & _ & Hget' & _). congruence. }
    unfold raise_for_status. case_bool_decide as Hstatus.
    { split; [done|]. intros (? & ? & ? & [= <-] & _ & Hget' & Hok & _).
      rewrite Hget in Hget'. by injection Hget' as <- _. }
    destruct body as [msg|d|]; simpl.
    + split.
      * intros [= <-]. by exists (String c p), status, msg.
      * intros (? & ? & ? & [= <-] & _ & Hget' & _ & ->).
        rewrite Hget in Hget'. by injection Hget' as _ <-.
    + split; [done|]. intros (? & ? & ? & [= <-] & _ & Hget' & _). congruence.
    + split; [done|]. intros (? & ? & ? & [= <-] & _ & Hget' & _). congruence.
  - split; [done|]. by intros (? & ? & ? & [=] & _).
Qed.

(** X24. [get_game_play_by_play] raises in one situation only: the game
    has a path, the server answers with a status that is not an error
    status, and the body is not JSON; the exception is then the decoding
    error of that body. *)
Theorem get_game_play_by_play_raises (w : world) (path : option string) (e : exn) :
  get_game_play_by_play w path = Raise e
  <-> ∃ p status msg,
        path = Some p ∧ p ≠ ""
        ∧ http_get w (play_by_play_url p) = Reply status (NotJson msg)
        ∧ ¬ (400 ≤ status < 600)
        ∧ e = JSONDecodeError msg.
Proof. apply play_by_play_raise_cases. Qed.

(** ** Row builder *)

Lemma extract_shape (o : option odds_event) :
  (∃ p label, match o with
              | Some ev => extract_full_game_total_with_book ev
              | None => (None, None)
              end = (Some p, Some label))
  ∨ match o with
    | Some ev => extract_full_game_total_with_book ev
    | None => (None, None)
    end = (None, None).
Proof.
  destruct o as [ev|]; [|by right].
  destruct (scan_priority_shape (bm_by_key (default [] (bookmakers ev)))
              BOOKMAKER_PRIORITY) as [(p & label & Heq & _)|Heq].
  - unfold BOOKMAKER_PRIORITY. repeat (apply Forall_cons; split; [done|]).
    by apply Forall_nil.
  - left. by exists p, label.
  - by right.
Qed.

(** What the loop body does with one game. *)
Lemma game_row_shape (w : world) (odds_games : list odds_event) (gwrap : game_wrap)
    (o : option row) :
  game_row w odds_games gwrap = Return o ->
  if shown (period_label gwrap) then
    ∃ matchup state stats_1h total book,
      o = Some (row_of matchup state (period_label gwrap) stats_1h total book)
      ∧ ((∃ p label, total = Some p ∧ book = Some label) ∨ (total = None ∧ book = None))
  else o = None.
Proof.
  unfold game_row. fold (period_label gwrap).
  destruct (shown (period_label gwrap)); cbn [negb]; [|by intros [= <-]].
  match goal with |- context [mbind _ ?m] => destruct m as [stats_1h|e] end;
    [|done].
  cbn [mbind result_bind].
  match goal with |- context [find_matching_odds_event ?a ?b ?c] =>
    pose proof (extract_shape (find_matching_odds_event a b c)) as Hshape;
    destruct (match find_matching_odds_event a b c with
              | Some ev => extract_full_game_total_with_book ev
              | None => (None, None)
              end) as [total book] end.
  intros [= <-]. eexists _, _, stats_1h, total, book. split; [reflexivity|].
  destruct Hshape as [(p & label & [= -> ->])|[= -> ->]]; eauto.
Qed.





Lemma rows_loop_periods (w : world) (odds_games : list odds_event)
    (games : list game_wrap) (acc rows : list row) :
  rows_loop w odds_games games acc = Return rows ->
  r_period <$> rows = (r_period <$> acc) ++ List.filter shown (period_label <$> games).
Proof.
  revert acc. induction games as [|g games IH]; intros acc.
  { intros [= <-]. by rewrite app_nil_r. }
  simpl. destruct (game_row w odds_games g) as [o|e] eqn:Hg; [|done].
  simpl. intros Hloop%IH. rewrite Hloop.
  apply game_row_shape in Hg. destruct (shown (period_label g)).
  - destruct Hg as (m & st & stats & total & book & -> & _).
    by rewrite fmap_app, <- app_assoc.
  - by rewrite Hg.
Qed.

(** X26. When the cycle succeeds, the rows are, one for one and in
    scoreboard order, the games that pass the period filter: the period
    column of the rows is the list of the period labels that pass it. *)
Theorem rows_follow_shown_games (w : world) (sb : scoreboard) (rows : list row) :
  scoreboard_today w = Return sb ->
  build_dashboard_rows w = Return (rows, None) ->
  r_period <$> rows = List.filter shown (period_label <$> default [] (games sb)).
Proof.
  intros Hsb. unfold build_dashboard_rows. rewrite Hsb.
  destruct (odds_today w) as [odds_games|e]; [|done].
  destruct (rows_loop w odds_games (default [] (games sb)) []) as [rows'|e] eqn:Hloop;
    [|done].
  intros [= <-]. by apply rows_loop_periods in Hloop.
Qed.

Lemma rows_follow_shown_games_witness :
  ∃ rows,
    build_dashboard_rows
      (quiet_world [first_half_game; overtime_final_game; halftime_game])
    = Return (rows, None)
    ∧ r_period <$> rows = ["1ST"; "HALF"].
Proof.
  eexists. split; [vm_compute; reflexivity|].
  exact (rows_follow_shown_games
           (quiet_world [first_half_game; overtime_final_game; halftime_game])
           {| games := Some [first_half_game; overtime_final_game; halftime_game] |}
           _ eq_refl eq_refl).
Defined.

(** X27. In every row the fields that come from the same input are
    defined together: the four play-by-play fields with the integer, the
    book with the total, the derived line exactly when both the integer
    and the total are there, and the four evaluation fields exactly when
    the derived line is. *)
Theorem row_fields_defined_together (w : world) (odds_games : list odds_event)
    (gwrap : game_wrap) (r : row) :
  game_row w odds_games gwrap = Return (Some r) ->
  (is_Some (r_fga r) <-> is_Some (r_integer r))
  ∧ (is_Some (r_fta r) <-> is_Some (r_integer r))
  ∧ (is_Some (r_to r) <-> is_Some (r_integer r))
  ∧ (is_Some (half_score r) <-> is_Some (r_integer r))
  ∧ (is_Some (full_game_book r) <-> is_Some (full_game_total r))
  ∧ (is_Some (derived_2h_line r)
     <-> is_Some (r_integer r) ∧ is_Some (full_game_total r))
  ∧ (is_Some (r_qualifies r) <-> is_Some (derived_2h_line r))
  ∧ (is_Some (r_lean r) <-> is_Some (derived_2h_line r))
  ∧ (is_Some (r_diff_line r) <-> is_Some (derived_2h_line r))
  ∧ (is_Some (r_score_diff r) <-> is_Some (derived_2h_line r)).
Proof.
  intros Hrow%game_row_shape. destruct (shown (period_label gwrap)); [|done].
  destruct Hrow as (m & st & stats & total & book & [= ->] & Hshape).
  destruct Hshape as [(p & label & -> & ->)|[-> ->]], stats as [stats|];
    cbn; rewrite ?is_Some_alt; tauto.
Qed.

Lemma row_fields_defined_together_witness :
  ∃ r, game_row (quiet_world []) [] first_half_game = Return (Some r)
       ∧ (is_Some (r_qualifies r) <-> is_Some (derived_2h_line r)).
Proof.
  eexists. split; [vm_compute; reflexivity|].
  eapply (row_fields_defined_together (quiet_world []) [] first_half_game).
  vm_compute. reflexivity.
Defined.



(** X29. A game flagged as having no play-by-play, or one without a
    path, causes no request: its row does not depend on what the server
    would answer, and it carries no first-half statistics. *)
Theorem no_play_by_play_no_request (w w' : world) (odds_games : list odds_event)
    (gwrap : game_wrap) :
  hasPbp (default no_game (gw_game gwrap)) = Some false
  ∨ Py.truthy (url (default no_game (gw_game gwrap))) = false ->
  game_row w odds_games gwrap = game_row w' odds_games gwrap
  ∧ ∀ r, game_row w odds_games gwrap = Return (Some r) -> r_integer r = None.
Proof.
  intros Hno.
  assert (∀ v : world,
            (if default true (hasPbp (default no_game (gw_game gwrap)))
             then pbp ← get_game_play_by_play v (url (default no_game (gw_game gwrap)));
                  Return (pbp ≫= compute_first_half_stats_from_pbp)
             else Return None) = Return None) as Hstats.
  { intros v. destruct Hno as [-> | Hurl]; [done|].
    destruct (default true _); [|done].
    unfold get_game_play_by_play. by rewrite Hurl. }
  unfold game_row. rewrite (Hstats w), (Hstats w'). split; [done|].
  destruct (shown _); cbn [negb mbind result_bind]; [|done].
  destruct (match find_matching_odds_event _ _ _ with
            | Some ev => extract_full_game_total_with_book ev
            | None => (None, None)
            end) as [total book].
  by intros r [= <-].
Qed.

Lemma no_play_by_play_no_request_witness :
  game_row matched_world matched_odds first_half_game
  = game_row garbled_world matched_odds first_half_game.
Proof.
  apply (no_play_by_play_no_request matched_world garbled_world matched_odds
           first_half_game).
  left. reflexivity.
Defined.
